(** * Backend debugging assistant: record store, fallback classifier,
      analysis gateway and HTTP handlers

    A shallow embedding of [src/lib/analyzer.ts] (the analysis gateway, the
    fallback classifier and the file-backed record store, which the routes
    import as [@/lib/db]) and of [src/app/api/errors/route.ts].

    Modelling conventions.
    - JavaScript strings are Rocq [string]s holding ASCII text; [toLowerCase]
      folds the letters A-Z and leaves every other character alone.
    - JavaScript numbers that the code uses as integers (clock readings,
      timestamps, limits) are [Z]; the [number] type adds [NaN], which
      [parseInt] can return.  Fractional numbers (confidence scores,
      processing times) are [Q].
    - Code that can throw lives in the monad [M]: a computation takes the
      world and returns the new world together with either a value or the
      exception thrown.  The world persists across a throw, as in JavaScript.
    - The text of the backing file is kept by what [JSON.parse] makes of it:
      either text it rejects, or the serialisation of an array of records.
      File-system calls on an existing path succeed. *)

From Stdlib Require Import ZArith List String Ascii Bool Lia QArith.
From Stdlib Require Import Sorting.Sorted Sorting.Permutation.
From Stdlib Require Import DecimalString DecimalZ.
Import ListNotations.

Local Open Scope string_scope.
Local Open Scope Z_scope.

(** ** Fragments of the JavaScript runtime the code relies on *)

Module JS.

(** [number], restricted to the values the code can meet: integers and the
    [NaN] that [parseInt] returns when no digit is found. *)
Inductive number : Type :=
| NaN : number
| Int : Z -> number.

(** Exceptions, by constructor name. *)
Inductive Exn : Type :=
| SyntaxError (msg : string)
| TypeError (msg : string)
| TimeoutError
| Error (msg : string)
| ENOENT.

Inductive result (A : Type) : Type :=
| Ok (a : A)
| Throw (e : Exn).
Arguments Ok {A} a.
Arguments Throw {A} e.

(** *** Strings *)

Definition lower_ascii (c : ascii) : ascii :=
  let n := nat_of_ascii c in
  if ((65 <=? n)%nat && (n <=? 90)%nat)%bool then ascii_of_nat (n + 32) else c.

(** [String.prototype.toLowerCase] on ASCII text. *)
Fixpoint toLowerCase (s : string) : string :=
  match s with
  | EmptyString => EmptyString
  | String c s' => String (lower_ascii c) (toLowerCase s')
  end.

(** [String.prototype.includes]: [kw] occurs somewhere in [s]. *)
Fixpoint includes (s kw : string) : bool :=
  (String.prefix kw s
   || match s with
      | EmptyString => false
      | String _ s' => includes s' kw
      end)%bool.

(** [Number.prototype.toString] of an integer: decimal digits, a leading
    minus sign for negatives. *)
Definition toString (z : Z) : string :=
  NilZero.string_of_int (Z.to_int z).

(** *** [parseInt] without a radix argument

    Leading white space is skipped, then an optional sign, then an optional
    [0x] prefix that switches to radix 16; the longest run of digits gives
    the value and an empty run gives [NaN].  The value is kept as the exact
    integer: [slice] clamps it to the length of the array, so rounding to a
    double makes no difference to the code that uses it. *)

Definition isWhiteSpace (c : ascii) : bool :=
  let n := nat_of_ascii c in
  ((n =? 32) || (n =? 9) || (n =? 10) || (n =? 11) || (n =? 12) || (n =? 13))%nat%bool.

Fixpoint trimStart (s : string) : string :=
  match s with
  | String c s' => if isWhiteSpace c then trimStart s' else s
  | EmptyString => EmptyString
  end.

(** Value of [c] as a digit, for radix up to 16. *)
Definition digitValue (c : ascii) : option Z :=
  let n := Z.of_nat (nat_of_ascii c) in
  if (48 <=? n) && (n <=? 57) then Some (n - 48)
  else if (97 <=? n) && (n <=? 102) then Some (n - 87)
  else if (65 <=? n) && (n <=? 70) then Some (n - 55)
  else None.

(** Longest prefix of radix-[R] digits, accumulated from the left;
    [None] when the prefix is empty. *)
Fixpoint parseDigits (R : Z) (s : string) (acc : option Z) : option Z :=
  match s with
  | EmptyString => acc
  | String c s' =>
      match digitValue c with
      | Some d =>
          if d <? R
          then parseDigits R s' (Some (R * match acc with Some a => a | None => 0 end + d))
          else acc
      | None => acc
      end
  end.

Definition parseInt (input : string) : number :=
  let inputString := trimStart input in
  let '(sign, unsigned) :=
    match inputString with
    | String "-"%char rest => (-1, rest)
    | String "+"%char rest => (1, rest)
    | _ => (1, inputString)
    end in
  let '(R, digits) :=
    match unsigned with
    | String "0"%char (String "x"%char rest) => (16, rest)
    | String "0"%char (String "X"%char rest) => (16, rest)
    | _ => (10, unsigned)
    end in
  match parseDigits R digits None with
  | None => NaN
  | Some mathInt => Int (sign * mathInt)
  end.

(** *** Arrays *)

(** [ToIntegerOrInfinity] on the numbers of the model. *)
Definition toIntegerOrInfinity (n : number) : Z :=
  match n with
  | NaN => 0
  | Int z => z
  end.

(** A relative index clamped into [0, len]. *)
Definition clampIndex (len rel : Z) : Z :=
  if rel <? 0 then Z.max (len + rel) 0 else Z.min rel len.

(** [Array.prototype.slice(start, end)]. *)
Definition slice {A : Type} (l : list A) (start last : number) : list A :=
  let len := Z.of_nat (List.length l) in
  let k := clampIndex len (toIntegerOrInfinity start) in
  let final := clampIndex len (toIntegerOrInfinity last) in
  firstn (Z.to_nat (Z.max (final - k) 0)) (skipn (Z.to_nat k) l).

(** [Array.prototype.sort(compareFn)] is a stable sort.  [insert x l] puts
    [x] in front of the first element it does not have to follow, so that
    elements the comparator holds equal keep their original order. *)
Fixpoint insert {A : Type} (compareFn : A -> A -> Z) (x : A) (l : list A) : list A :=
  match l with
  | [] => [x]
  | y :: l' =>
      if compareFn x y <=? 0 then x :: l else y :: insert compareFn x l'
  end.

Definition sort {A : Type} (compareFn : A -> A -> Z) (l : list A) : list A :=
  fold_right (insert compareFn) [] l.

(** [Array.prototype.findIndex]; [None] stands for [-1]. *)
Fixpoint findIndex {A : Type} (f : A -> bool) (l : list A) : option nat :=
  match l with
  | [] => None
  | x :: l' => if f x then Some O else option_map S (findIndex f l')
  end.

(** [arr[i] = v] for an index inside the array. *)
Fixpoint assign {A : Type} (l : list A) (i : nat) (v : A) : list A :=
  match l, i with
  | [], _ => []
  | _ :: l', O => v :: l'
  | x :: l', S i' => x :: assign l' i' v
  end.

End JS.
Import JS.

(** ** Data model ([AnalysisResult], [ErrorRecord]) *)

Inductive Severity : Type := critical | high | medium | low.

Record AnalysisMetadata : Type := {
  model : string;
  meta_timestamp : Q;
  processingTimeMs : Q
}.

Record AnalysisResult : Type := {
  severity : Severity;
  rootCause : string;
  recommendations : list string;
  relatedErrors : list string;
  category : string;
  confidenceScore : option Q;
  analysisMetadata : option AnalysisMetadata
}.

Record ErrorRecord : Type := {
  id : string;
  timestamp : Z;
  errorMessage : string;
  errorType : string;
  stackTrace : string;
  context : string;
  analysis : option AnalysisResult
}.

(** [Omit<ErrorRecord, 'id' | 'timestamp'>], the argument of [saveError]. *)
Record NewError : Type := {
  new_errorMessage : string;
  new_errorType : string;
  new_stackTrace : string;
  new_context : string;
  new_analysis : option AnalysisResult
}.

(** [Partial<ErrorRecord>], the argument of [updateError]: [None] is a key
    the object does not have.  [analysis] is optional in [ErrorRecord]
    itself, so its key can be present and hold [undefined]. *)
Record ErrorUpdates : Type := {
  upd_id : option string;
  upd_timestamp : option Z;
  upd_errorMessage : option string;
  upd_errorType : option string;
  upd_stackTrace : option string;
  upd_context : option string;
  upd_analysis : option (option AnalysisResult)
}.

(** ** Fallback classifier ([fallbackAnalyzer]) *)

Record ErrorPattern : Type := {
  keywords : list string;
  pattern_severity : Severity;
  pattern_category : string;
  pattern_recommendations : list string
}.

Module ERROR_PATTERNS.

Definition database : ErrorPattern := {|
  keywords := ["connection"; "timeout"; "pool"; "database"; "query";
               "transaction"; "constraint"];
  pattern_severity := high;
  pattern_category := "Database";
  pattern_recommendations :=
    ["Check database connection string and credentials";
     "Verify database server is running and accessible";
     "Review query performance and optimize if needed";
     "Check for connection pool exhaustion"]
|}.

Definition network : ErrorPattern := {|
  keywords := ["fetch"; "http"; "socket"; "econnrefused"; "timeout";
               "enotfound"; "cors"];
  pattern_severity := high;
  pattern_category := "Network";
  pattern_recommendations :=
    ["Verify network connectivity and DNS resolution";
     "Check endpoint URL and port are correct";
     "Review CORS policies if applicable";
     "Increase timeout duration if requests take longer"]
|}.

Definition runtime : ErrorPattern := {|
  keywords := ["undefined"; "null"; "typeerror"; "cannot read";
               "not a function"; "reference"];
  pattern_severity := high;
  pattern_category := "Runtime";
  pattern_recommendations :=
    ["Add null/undefined checks before property access";
     "Use optional chaining (?.) and nullish coalescing (??)";
     "Enable strict mode and TypeScript strict checks";
     "Add type guards and runtime validation"]
|}.

(** [Object.values(ERROR_PATTERNS)]: the patterns in declaration order. *)
Definition values : list ErrorPattern := [database; network; runtime].

End ERROR_PATTERNS.

(** The text the keywords are looked up in. *)
Definition fullText (errorMessage errorType stackTrace context : string) : string :=
  toLowerCase (errorMessage ++ " " ++ errorType ++ " " ++ stackTrace ++ " " ++ context).

(** [pattern.keywords.filter(kw => fullText.includes(kw)).length] *)
Definition matchCount (text : string) (pattern : ErrorPattern) : Z :=
  Z.of_nat (List.length (filter (fun kw => includes text kw) (keywords pattern))).

(** One turn of the [for ... of] loop on the pair [(bestMatch, maxMatches)]. *)
Definition considerPattern (text : string)
    (state : ErrorPattern * Z) (pattern : ErrorPattern) : ErrorPattern * Z :=
  let '(bestMatch, maxMatches) := state in
  let count := matchCount text pattern in
  if maxMatches <? count then (pattern, count) else (bestMatch, maxMatches).

(** The loop over an arbitrary list of patterns, from an arbitrary start. *)
Definition scanPatterns (text : string) (patterns : list ErrorPattern)
    (start : ErrorPattern * Z) : ErrorPattern * Z :=
  fold_left (considerPattern text) patterns start.

(** The loop as the code runs it: over the three patterns, starting from
    [bestMatch = ERROR_PATTERNS.runtime] and [maxMatches = 0]. *)
Definition bestMatch (text : string) : ErrorPattern :=
  fst (scanPatterns text ERROR_PATTERNS.values (ERROR_PATTERNS.runtime, 0)).

Definition fallbackAnalyzer
    (errorMessage errorType stackTrace context : string) : AnalysisResult :=
  let best := bestMatch (fullText errorMessage errorType stackTrace context) in
  {| severity := pattern_severity best;
     category := pattern_category best;
     rootCause := errorType ++ ": " ++ errorMessage;
     recommendations := pattern_recommendations best;
     relatedErrors := [];
     confidenceScore := Some (1 # 2);
     analysisMetadata := None |}.

(** ** The world the code runs in *)

(** What the backing file holds, by what [JSON.parse] makes of its text.
    [JSON.stringify(errors, null, 2)] writes [Json errors]. *)
Inductive FileContent : Type :=
| Garbage (text : string)
| Json (errors : list ErrorRecord).

(** [public/] and [public/errors.json]. *)
Inductive Disk : Type :=
| NoDirectory
| NoFile
| File (content : FileContent).

(** The body [analyzeError] posts to [/api/analyze]. *)
Record AnalyzeRequest : Type := {
  error_message : string;
  error_type : string;
  stack_trace : string;
  request_context : string
}.

Record WireMetadata : Type := {
  wire_model : string;
  wire_timestamp : Q;
  processing_time_ms : Q
}.

(** The snake_case answer of the analysis service. *)
Record WireAnalysis : Type := {
  wire_severity : Severity;
  wire_category : string;
  root_cause : string;
  wire_recommendations : list string;
  related_errors : list string;
  confidence_score : option Q;
  analysis_metadata : option WireMetadata
}.

(** Body of a response whose status is not 2xx. *)
Inductive ErrorBody : Type :=
| ErrorNotJson
| ErrorNull
| ErrorObject (detail : option string).

(** Body of a 2xx response. *)
Inductive SuccessBody : Type :=
| SuccessNotJson
| SuccessNull
| SuccessData (data : WireAnalysis).

(** What one [fetch] of the analysis endpoint can end in. *)
Inductive FetchOutcome : Type :=
| Unreachable
| TimedOut
| NotOk (status : Z) (body : ErrorBody)
| Success (body : SuccessBody).

(** A fetch that resolved. *)
Inductive Response : Type :=
| ResponseNotOk (status : Z) (body : ErrorBody)
| ResponseOk (body : SuccessBody).

(** [clock] lists the successive readings of [Date.now()] and [ticks] counts
    the readings taken so far; [service n] is how the analysis service treats
    the call number [n]; [outbound] logs the calls made, latest first. *)
Record World : Type := {
  disk : Disk;
  clock : nat -> Z;
  ticks : nat;
  service : nat -> AnalyzeRequest -> FetchOutcome;
  outbound : list AnalyzeRequest
}.

Definition with_disk (d : Disk) (w : World) : World :=
  {| disk := d; clock := clock w; ticks := ticks w;
     service := service w; outbound := outbound w |}.

Definition with_tick (w : World) : World :=
  {| disk := disk w; clock := clock w; ticks := S (ticks w);
     service := service w; outbound := outbound w |}.

Definition with_call (r : AnalyzeRequest) (w : World) : World :=
  {| disk := disk w; clock := clock w; ticks := ticks w;
     service := service w; outbound := r :: outbound w |}.

(** ** Computations that read and change the world and may throw *)

Definition M (A : Type) : Type := World -> World * result A.

Definition ret {A : Type} (a : A) : M A := fun w => (w, Ok a).

Definition throw {A : Type} (e : Exn) : M A := fun w => (w, Throw e).

Definition bind {A B : Type} (c : M A) (k : A -> M B) : M B :=
  fun w =>
    match c w with
    | (w', Ok a) => k a w'
    | (w', Throw e) => (w', Throw e)
    end.

(** [try { c } catch (e) { handler e }] *)
Definition try_catch {A : Type} (c : M A) (handler : Exn -> M A) : M A :=
  fun w =>
    match c w with
    | (w', Ok a) => (w', Ok a)
    | (w', Throw e) => handler e w'
    end.

Declare Scope js_scope.
Delimit Scope js_scope with js.
Notation "x <- c ;; k" := (bind c (fun x => k))
  (at level 61, c at next level, right associativity) : js_scope.
Notation "c ;; k" := (bind c (fun _ => k))
  (at level 61, right associativity) : js_scope.
Local Open Scope js_scope.

(** *** [Date.now], [fs], [JSON], [fetch] *)

Definition Date_now : M Z :=
  fun w => (with_tick w, Ok (clock w (ticks w))).

Definition existsSync_dir : M bool :=
  fun w => (w, Ok match disk w with NoDirectory => false | _ => true end).

Definition existsSync_file : M bool :=
  fun w => (w, Ok match disk w with File _ => true | _ => false end).

Definition mkdirSync : M unit :=
  fun w => (with_disk match disk w with NoDirectory => NoFile | d => d end w, Ok tt).

Definition writeFileSync (data : FileContent) : M unit :=
  fun w =>
    match disk w with
    | NoDirectory => (w, Throw ENOENT)
    | _ => (with_disk (File data) w, Ok tt)
    end.

Definition readFileSync : M FileContent :=
  fun w =>
    match disk w with
    | File data => (w, Ok data)
    | _ => (w, Throw ENOENT)
    end.

Definition JSON_parse (data : FileContent) : M (list ErrorRecord) :=
  match data with
  | Garbage _ => throw (SyntaxError "Unexpected token")
  | Json errors => ret errors
  end.

Definition JSON_stringify (errors : list ErrorRecord) : FileContent := Json errors.

(** [fetch] rejects when the service cannot be reached and when
    [AbortSignal.timeout(30000)] fires; otherwise it resolves to a response. *)
Definition fetch (request : AnalyzeRequest) : M Response :=
  fun w =>
    let w' := with_call request w in
    match service w (List.length (outbound w)) request with
    | Unreachable => (w', Throw (TypeError "fetch failed"))
    | TimedOut => (w', Throw TimeoutError)
    | NotOk status body => (w', Ok (ResponseNotOk status body))
    | Success body => (w', Ok (ResponseOk body))
    end.

(** ** Analysis gateway ([analyzeError]) *)

(** [response.json().catch(() => ({}))] followed by
    [errorData.detail || `API error: ${response.status}`]. *)
Definition errorDetail (status : Z) (body : ErrorBody) : M string :=
  match body with
  | ErrorNull => throw (TypeError "Cannot read properties of null")
  | ErrorObject (Some detail) =>
      ret (if detail =? "" then "API error: " ++ toString status else detail)%string
  | ErrorObject None | ErrorNotJson => ret ("API error: " ++ toString status)
  end.

(** [await response.json()] on a 2xx response, then the first field read. *)
Definition responseData (body : SuccessBody) : M WireAnalysis :=
  match body with
  | SuccessNotJson => throw (SyntaxError "Unexpected token")
  | SuccessNull => throw (TypeError "Cannot read properties of null")
  | SuccessData data => ret data
  end.

(** Transform snake_case to camelCase. *)
Definition transform (data : WireAnalysis) : AnalysisResult :=
  {| severity := wire_severity data;
     category := wire_category data;
     rootCause := root_cause data;
     recommendations := wire_recommendations data;
     relatedErrors := related_errors data;
     confidenceScore := confidence_score data;
     analysisMetadata :=
       match analysis_metadata data with
       | Some m => Some {| model := wire_model m;
                           meta_timestamp := wire_timestamp m;
                           processingTimeMs := processing_time_ms m |}
       | None => None
       end |}.

(** The body of the [try] block. *)
Definition callAnalysisApi
    (errorMessage errorType stackTrace context : string) : M AnalysisResult :=
  response <- fetch {| error_message := errorMessage;
                       error_type := errorType;
                       stack_trace := stackTrace;
                       request_context := context |} ;;
  match response with
  | ResponseNotOk status body =>
      message <- errorDetail status body ;;
      throw (Error message)
  | ResponseOk body =>
      data <- responseData body ;;
      ret (transform data)
  end.

Definition analyzeError
    (errorMessage errorType stackTrace context : string) : M AnalysisResult :=
  try_catch (callAnalysisApi errorMessage errorType stackTrace context)
            (fun _ => ret (fallbackAnalyzer errorMessage errorType stackTrace context)).

(** ** Record store *)

Definition ensureDbFile : M unit :=
  dirExists <- existsSync_dir ;;
  (if negb dirExists then mkdirSync else ret tt) ;;
  fileExists <- existsSync_file ;;
  if negb fileExists then writeFileSync (JSON_stringify []) else ret tt.

Definition getAllErrors : M (list ErrorRecord) :=
  ensureDbFile ;;
  try_catch (data <- readFileSync ;; JSON_parse data)
            (fun _ => ret []).

Definition getErrorById (target : string) : M (option ErrorRecord) :=
  errors <- getAllErrors ;;
  ret (find (fun e => id e =? target)%string errors).

Definition saveError (error : NewError) : M ErrorRecord :=
  ensureDbFile ;;
  errors <- getAllErrors ;;
  idNow <- Date_now ;;
  timestampNow <- Date_now ;;
  let newError :=
    {| id := toString idNow;
       timestamp := timestampNow;
       errorMessage := new_errorMessage error;
       errorType := new_errorType error;
       stackTrace := new_stackTrace error;
       context := new_context error;
       analysis := new_analysis error |} in
  writeFileSync (JSON_stringify (errors ++ [newError])) ;;
  ret newError.

Definition orElse {A : Type} (update : option A) (current : A) : A :=
  match update with
  | Some a => a
  | None => current
  end.

(** [{ ...record, ...updates }] *)
Definition spread (record : ErrorRecord) (updates : ErrorUpdates) : ErrorRecord :=
  {| id := orElse (upd_id updates) (id record);
     timestamp := orElse (upd_timestamp updates) (timestamp record);
     errorMessage := orElse (upd_errorMessage updates) (errorMessage record);
     errorType := orElse (upd_errorType updates) (errorType record);
     stackTrace := orElse (upd_stackTrace updates) (stackTrace record);
     context := orElse (upd_context updates) (context record);
     analysis := orElse (upd_analysis updates) (analysis record) |}.

(** [errors[index]] is defined whenever [findIndex] returned [index]; the
    inner [None] branch is there for totality only. *)
Definition updateError (target : string) (updates : ErrorUpdates)
    : M (option ErrorRecord) :=
  ensureDbFile ;;
  errors <- getAllErrors ;;
  match findIndex (fun e => id e =? target)%string errors with
  | None => ret None
  | Some index =>
      match nth_error errors index with
      | None => ret None
      | Some current =>
          let merged := spread current updates in
          writeFileSync (JSON_stringify (assign errors index merged)) ;;
          ret (Some merged)
      end
  end.

Definition deleteError (target : string) : M bool :=
  ensureDbFile ;;
  errors <- getAllErrors ;;
  let filtered := filter (fun e => negb (id e =? target)%string) errors in
  if (List.length filtered =? List.length errors)%nat then ret false
  else
    writeFileSync (JSON_stringify filtered) ;;
    ret true.

(** [(a, b) => b.timestamp - a.timestamp] *)
Definition byTimestampDescending (a b : ErrorRecord) : Z :=
  timestamp b - timestamp a.

(** [limit = None] is a call without argument, which takes the default 10. *)
Definition getRecentErrors (limit : option number) : M (list ErrorRecord) :=
  let limit := match limit with Some n => n | None => Int 10 end in
  errors <- getAllErrors ;;
  ret (slice (sort byTimestampDescending errors) (Int 0) limit).

Definition searchErrors (query : string) : M (list ErrorRecord) :=
  errors <- getAllErrors ;;
  let lowerQuery := toLowerCase query in
  ret (filter (fun e =>
                 includes (toLowerCase (errorMessage e)) lowerQuery
                 || includes (toLowerCase (errorType e)) lowerQuery
                 || includes (toLowerCase (context e)) lowerQuery)%bool
              errors).

(** ** HTTP handlers of [/api/errors] *)

Inductive Payload : Type :=
| ErrorPayload (error : string)
| RecordPayload (record : ErrorRecord)
| ListPayload (records : list ErrorRecord).

(** [NextResponse.json(payload, { status })]; the status defaults to 200. *)
Record HttpResponse : Type := {
  status : Z;
  payload : Payload
}.

(** The fields of a POST body, [None] for a key the object does not have. *)
Record PostFields : Type := {
  body_errorMessage : option string;
  body_errorType : option string;
  body_stackTrace : option string;
  body_context : option string
}.

(** What [request.json()] meets: text that is not JSON, the JSON [null],
    or an object. *)
Inductive RequestBody : Type :=
| BodyNotJson
| BodyNull
| BodyObject (fields : PostFields).

(** [await request.json()] and the destructuring of the result. *)
Definition request_json (body : RequestBody) : M PostFields :=
  match body with
  | BodyNotJson => throw (SyntaxError "Unexpected token")
  | BodyNull => throw (TypeError "Cannot destructure property of null")
  | BodyObject fields => ret fields
  end.

(** Truthiness of a value that is a string or [undefined] / [null]. *)
Definition truthy (v : option string) : bool :=
  match v with
  | Some s => negb (s =? "")%string
  | None => false
  end.

(** [v || ''] *)
Definition orEmpty (v : option string) : string :=
  match v with
  | Some s => s
  | None => ""
  end.

(** [searchParams.get('limit')] is [None] when the URL has no such
    parameter and [Some ""] for [?limit=]. *)
Definition GET (limit : option string) : M HttpResponse :=
  try_catch
    (errors <- (if truthy limit
                then getRecentErrors (Some (parseInt (orEmpty limit)))
                else getAllErrors) ;;
     ret {| status := 200; payload := ListPayload errors |})
    (fun _ => ret {| status := 500; payload := ErrorPayload "Failed to fetch errors" |}).

(** Past the guard [errorMessage] and [errorType] are non-empty strings,
    which [orEmpty] returns as they are. *)
Definition POST (body : RequestBody) : M HttpResponse :=
  try_catch
    (fields <- request_json body ;;
     if (negb (truthy (body_errorMessage fields))
         || negb (truthy (body_errorType fields)))%bool
     then ret {| status := 400; payload := ErrorPayload "Missing required fields" |}
     else
       let errorMessage := orEmpty (body_errorMessage fields) in
       let errorType := orEmpty (body_errorType fields) in
       let stackTrace := orEmpty (body_stackTrace fields) in
       let context := orEmpty (body_context fields) in
       analysis <- analyzeError errorMessage errorType stackTrace context ;;
       savedError <- saveError {| new_errorMessage := errorMessage;
                                  new_errorType := errorType;
                                  new_stackTrace := stackTrace;
                                  new_context := context;
                                  new_analysis := Some analysis |} ;;
       ret {| status := 201; payload := RecordPayload savedError |})
    (fun _ => ret {| status := 500;
                     payload := ErrorPayload "Failed to create error record" |}).

(** ** [calculateSeverityScore] *)

(** What reading a property of an object literal gives: a value of its own,
    a member inherited from [Object.prototype], or [undefined]. *)
Inductive Property : Type :=
| Own (value : Z)
| Inherited (member : string)
| Undefined.

(** What [calculateSeverityScore] returns: declared [number], but an
    inherited member comes back as it is. *)
Inductive Score : Type :=
| Number (n : Z)
| Member (name : string).

Definition SEVERITY_SCORES : list (string * Z) :=
  [("critical", 4); ("high", 3); ("medium", 2); ("low", 1)].

(** The property names every object literal inherits. *)
Definition Object_prototype : list string :=
  ["constructor"; "__proto__"; "hasOwnProperty"; "isPrototypeOf";
   "propertyIsEnumerable"; "toLocaleString"; "toString"; "valueOf";
   "__defineGetter__"; "__defineSetter__"; "__lookupGetter__";
   "__lookupSetter__"].

Fixpoint ownProperty (table : list (string * Z)) (key : string) : option Z :=
  match table with
  | [] => None
  | (name, value) :: rest =>
      if (name =? key)%string then Some value else ownProperty rest key
  end.

(** [SEVERITY_SCORES[key]] *)
Definition getProperty (key : string) : Property :=
  match ownProperty SEVERITY_SCORES key with
  | Some value => Own value
  | None =>
      if existsb (fun name => (name =? key)%string) Object_prototype
      then Inherited key
      else Undefined
  end.

(** [SEVERITY_SCORES[severity.toLowerCase()] || 0] *)
Definition calculateSeverityScore (severity : string) : Score :=
  match getProperty (toLowerCase severity) with
  | Own value => if value =? 0 then Number 0 else Number value
  | Inherited member => Member member
  | Undefined => Number 0
  end.

(** ** HTTP handlers of [/api/errors/[id]] *)

Inductive ItemPayload : Type :=
| ItemError (error : string)
| ItemRecord (record : ErrorRecord)
| ItemSuccess (success : bool).

Record ItemResponse : Type := {
  item_status : Z;
  item_payload : ItemPayload
}.

Definition GET_by_id (target : string) : M ItemResponse :=
  try_catch
    (error <- getErrorById target ;;
     match error with
     | None => ret {| item_status := 404; item_payload := ItemError "Error not found" |}
     | Some record => ret {| item_status := 200; item_payload := ItemRecord record |}
     end)
    (fun _ => ret {| item_status := 500;
                     item_payload := ItemError "Failed to fetch error" |}).

Definition DELETE_by_id (target : string) : M ItemResponse :=
  try_catch
    (success <- deleteError target ;;
     if negb success
     then ret {| item_status := 404; item_payload := ItemError "Error not found" |}
     else ret {| item_status := 200; item_payload := ItemSuccess true |})
    (fun _ => ret {| item_status := 500;
                     item_payload := ItemError "Failed to delete error" |}).

(** ** Pages and components: what they compute from the records *)

Definition severity_eqb (a b : Severity) : bool :=
  match a, b with
  | critical, critical | high, high | medium, medium | low, low => true
  | _, _ => false
  end.

(** [e.analysis?.severity === s] *)
Definition hasSeverity (s : Severity) (e : ErrorRecord) : bool :=
  match analysis e with
  | Some a => severity_eqb (severity a) s
  | None => false
  end.

(** The [counts] object of the [ErrorStats] component. *)
Module ErrorStats.

Record t : Type := {
  total : Z;
  critical : Z;
  high : Z;
  medium : Z;
  low : Z;
  recentHours : Z
}.

End ErrorStats.

Definition countWhere (f : ErrorRecord -> bool) (errors : list ErrorRecord) : Z :=
  Z.of_nat (List.length (filter f errors)).

Definition counts (now : Z) (errors : list ErrorRecord) : ErrorStats.t :=
  let oneHourAgo := now - 60 * 60 * 1000 in
  {| ErrorStats.total := Z.of_nat (List.length errors);
     ErrorStats.critical := countWhere (hasSeverity critical) errors;
     ErrorStats.high := countWhere (hasSeverity high) errors;
     ErrorStats.medium := countWhere (hasSeverity medium) errors;
     ErrorStats.low := countWhere (hasSeverity low) errors;
     ErrorStats.recentHours :=
       countWhere (fun e => oneHourAgo <? timestamp e) errors |}.

(** [String.prototype.trim] on ASCII text. *)
Fixpoint trimEnd (s : string) : string :=
  match s with
  | EmptyString => EmptyString
  | String c s' =>
      let rest := trimEnd s' in
      if (isWhiteSpace c && (rest =? ""))%string%bool then EmptyString
      else String c rest
  end.

Definition trim (s : string) : string := trimEnd (trimStart s).

(** The history page. *)
Module HistoryPage.

(** What the first effect stores in [errors]: the answer of [GET /api/errors]
    sorted by timestamp, most recent first. *)
Definition loaded (data : list ErrorRecord) : list ErrorRecord :=
  sort byTimestampDescending data.

(** What the second effect stores in [filteredErrors]. *)
Definition filteredErrors (searchQuery : string) (errors : list ErrorRecord)
    : list ErrorRecord :=
  if (trim searchQuery =? "")%string then errors
  else
    let query := toLowerCase searchQuery in
    filter (fun e =>
              includes (toLowerCase (errorMessage e)) query
              || includes (toLowerCase (errorType e)) query
              || includes (toLowerCase (context e)) query
              || includes (id e) query)%bool
           errors.

(** What [handleDelete] stores in [errors] once the server has answered ok. *)
Definition afterDelete (target : string) (errors : list ErrorRecord)
    : list ErrorRecord :=
  filter (fun e => negb (id e =? target)%string) errors.

End HistoryPage.

(** The error form of the dashboard. *)
Module ErrorForm.

Record formData : Type := {
  errorMessage : string;
  errorType : string;
  stackTrace : string;
  context : string
}.

(** The body [handleSubmit] posts to [/api/errors], or [None] when it stops
    on a message that is blank once trimmed. *)
Definition handleSubmit (form : formData) : option RequestBody :=
  if (trim (errorMessage form) =? "")%string then None
  else Some (BodyObject {| body_errorMessage := Some (errorMessage form);
                           body_errorType := Some (errorType form);
                           body_stackTrace := Some (stackTrace form);
                           body_context := Some (context form) |}).

End ErrorForm.

(** ** Sequences of store operations *)

Inductive Operation : Type :=
| Create (error : NewError)
| Remove (target : string)
| Lookup (target : string)
| Recent (limit : option number)
| Search (query : string)
| ReadAll.

(** One operation, for its effect on the world. *)
Definition perform (op : Operation) (w : World) : World :=
  match op with
  | Create error => fst (saveError error w)
  | Remove target => fst (deleteError target w)
  | Lookup target => fst (getErrorById target w)
  | Recent limit => fst (getRecentErrors limit w)
  | Search query => fst (searchErrors query w)
  | ReadAll => fst (getAllErrors w)
  end.

Definition performAll (ops : list Operation) (w : World) : World :=
  fold_left (fun w op => perform op w) ops w.

(** ** Vocabulary of the statements *)

(** The collection the store reads from the disk: the array the file holds,
    and nothing when the file is missing or does not parse. *)
Definition stored (w : World) : list ErrorRecord :=
  match disk w with
  | File (Json errors) => errors
  | _ => []
  end.

(** The world once [ensureDbFile] has run. *)
Definition ensured (w : World) : World :=
  match disk w with
  | File _ => w
  | _ => with_disk (File (Json [])) w
  end.

(** A required field of the POST body is missing: absent or empty. *)
Definition missing (v : option string) : Prop := v = None \/ v = Some "".

(** A clock that never runs backwards. *)
Definition monotone (c : nat -> Z) : Prop := forall n, c n <= c (S n).

(** Records from the most recent to the oldest. *)
Definition descending (l : list ErrorRecord) : Prop :=
  StronglySorted (fun a b => timestamp a >= timestamp b) l.

(** The external call of [analyzeError] failed: the service was unreachable,
    the wait timed out, the status was not 2xx, or the body of a 2xx
    response was not a JSON object. *)
Definition failed (outcome : FetchOutcome) : Prop :=
  match outcome with
  | Success (SuccessData _) => False
  | _ => True
  end.

(** The outcome of the call [analyzeError] makes in world [w]. *)
Definition outcomeOf (w : World) (errorMessage errorType stackTrace context : string)
    : FetchOutcome :=
  service w (List.length (outbound w))
          {| error_message := errorMessage; error_type := errorType;
             stack_trace := stackTrace; request_context := context |}.

(** What [analyzeError] returns given the outcome of its call. *)
Definition analysisOf (outcome : FetchOutcome)
    (errorMessage errorType stackTrace context : string) : AnalysisResult :=
  match outcome with
  | Success (SuccessData data) => transform data
  | _ => fallbackAnalyzer errorMessage errorType stackTrace context
  end.

(** The request [analyzeError] posts. *)
Definition requestOf (errorMessage errorType stackTrace context : string)
    : AnalyzeRequest :=
  {| error_message := errorMessage; error_type := errorType;
     stack_trace := stackTrace; request_context := context |}.

(** The record [saveError] builds in world [w]: the next clock reading
    rendered in decimal for [id], the reading after it for [timestamp]. *)
Definition created (error : NewError) (w : World) : ErrorRecord :=
  {| id := toString (clock w (ticks w));
     timestamp := clock w (S (ticks w));
     errorMessage := new_errorMessage error;
     errorType := new_errorType error;
     stackTrace := new_stackTrace error;
     context := new_context error;
     analysis := new_analysis error |}.

(** The name a severity has in JSON. *)
Definition severityName (s : Severity) : string :=
  match s with
  | critical => "critical"
  | high => "high"
  | medium => "medium"
  | low => "low"
  end.

(** A clock that advances on every reading. *)
Definition strictlyIncreasing (c : nat -> Z) : Prop := forall n, c n < c (S n).

(** Every stored id is the rendering of a reading already taken. *)
Definition idsFromClock (w : World) : Prop :=
  Forall (fun r => exists n, (n < ticks w)%nat /\ id r = toString (clock w n))
         (stored w).

(** Every stored timestamp is a reading already taken. *)
Definition timestampsFromClock (w : World) : Prop :=
  Forall (fun r => exists n, (n < ticks w)%nat /\ timestamp r = clock w n)
         (stored w).

(** Records from the oldest to the most recent. *)
Definition ascending (l : list ErrorRecord) : Prop :=
  StronglySorted (fun a b => timestamp a <= timestamp b) l.

(** *** Concrete worlds and inputs *)

Module Sample.

Definition analysis0 : AnalysisResult :=
  fallbackAnalyzer "connection refused" "Error" "" "".

Definition record (name : string) (t : Z) : ErrorRecord :=
  {| id := name; timestamp := t; errorMessage := "connection refused";
     errorType := "Error"; stackTrace := ""; context := "";
     analysis := Some analysis0 |}.

Definition newError : NewError :=
  {| new_errorMessage := "connection refused"; new_errorType := "Error";
     new_stackTrace := ""; new_context := ""; new_analysis := Some analysis0 |}.

Definition wire : WireAnalysis :=
  {| wire_severity := critical; wire_category := "Database";
     root_cause := "pool exhausted"; wire_recommendations := ["raise pool size"];
     related_errors := []; confidence_score := Some (9 # 10);
     analysis_metadata := None |}.

(** A clock that advances one millisecond every third reading, and a
    service that times out. *)
Definition world (d : Disk) : World :=
  {| disk := d;
     clock := fun n => 1700000000000 + Z.of_nat n / 3;
     ticks := 0;
     service := fun _ _ => TimedOut;
     outbound := [] |}.

(** The same with a clock that advances on every reading. *)
Definition tickingWorld (d : Disk) : World :=
  {| disk := d;
     clock := fun n => 1700000000000 + Z.of_nat n;
     ticks := 0;
     service := fun _ _ => TimedOut;
     outbound := [] |}.

(** The same with a service that answers. *)
Definition servedWorld (d : Disk) : World :=
  {| disk := d;
     clock := fun n => 1700000000000 + Z.of_nat n;
     ticks := 0;
     service := fun _ _ => Success (SuccessData wire);
     outbound := [] |}.

Definition three : list ErrorRecord :=
  [record "1" 10; record "2" 30; record "3" 20].

(** Updates that carry a new [id] and a new [timestamp]. *)
Definition rekey : ErrorUpdates :=
  {| upd_id := Some "2"; upd_timestamp := Some 99; upd_errorMessage := None;
     upd_errorType := None; upd_stackTrace := None; upd_context := None;
     upd_analysis := None |}.

(** Updates that only change the message. *)
Definition reword : ErrorUpdates :=
  {| upd_id := None; upd_timestamp := None;
     upd_errorMessage := Some "connection reset"; upd_errorType := None;
     upd_stackTrace := None; upd_context := None; upd_analysis := None |}.

Definition fields (message type : option string) : PostFields :=
  {| body_errorMessage := message; body_errorType := type;
     body_stackTrace := None; body_context := None |}.

End Sample.

(** ** Running the store *)

Lemma ensureDbFile_run (w : World) : ensureDbFile w = (ensured w, Ok tt).
Proof.
  destruct w as [d c t s o]; destruct d; reflexivity.
Qed.

Lemma getAllErrors_run (w : World) : getAllErrors w = (ensured w, Ok (stored w)).
Proof.
  destruct w as [d c t s o]; destruct d as [ | | [text | errors]]; reflexivity.
Qed.

Lemma ensured_file (w : World) (content : FileContent) :
  disk w = File content -> ensured w = w.
Proof.
  unfold ensured; intros ->; reflexivity.
Qed.

Lemma ensured_disk (w : World) : exists content, disk (ensured w) = File content.
Proof.
  destruct w as [d c t s o]; destruct d; eexists; reflexivity.
Qed.

Lemma ensured_ensured (w : World) : ensured (ensured w) = ensured w.
Proof.
  destruct (ensured_disk w) as [content H]; exact (ensured_file _ _ H).
Qed.

Lemma stored_ensured (w : World) : stored (ensured w) = stored w.
Proof.
  destruct w as [d c t s o]; destruct d as [ | | [text | errors]]; reflexivity.
Qed.

Lemma writeFileSync_ensured (w : World) (data : FileContent) :
  writeFileSync data (ensured w) = (with_disk (File data) (ensured w), Ok tt).
Proof.
  destruct w as [d c t s o]; destruct d; reflexivity.
Qed.

(** *** Reading the collection *)

(** C8. [getAllErrors] never raises: it returns the empty sequence when the
    backing file (or its directory) is missing and when the file's text is
    not JSON, and the whole stored array when the file parses. *)
Theorem getAllErrors_never_raises (w : World) :
  (exists errors, snd (getAllErrors w) = Ok errors) /\
  (disk w = NoDirectory -> snd (getAllErrors w) = Ok []) /\
  (disk w = NoFile -> snd (getAllErrors w) = Ok []) /\
  (forall text, disk w = File (Garbage text) -> snd (getAllErrors w) = Ok []) /\
  (forall errors, disk w = File (Json errors) -> snd (getAllErrors w) = Ok errors).
Proof.
  rewrite getAllErrors_run; cbn [snd]; unfold stored.
  split; [eexists; reflexivity | ].
  repeat split; intros; match goal with H : disk w = _ |- _ => rewrite H end;
    reflexivity.
Qed.

Lemma getAllErrors_never_raises_witness :
  snd (getAllErrors (Sample.world NoDirectory)) = Ok [] /\
  snd (getAllErrors (Sample.world NoFile)) = Ok [] /\
  snd (getAllErrors (Sample.world (File (Garbage "[{")))) = Ok [] /\
  snd (getAllErrors (Sample.world (File (Json Sample.three)))) = Ok Sample.three.
Proof.
  split; [ | split; [ | split]].
  - destruct (getAllErrors_never_raises (Sample.world NoDirectory)) as (_ & H & _).
    apply H; reflexivity.
  - destruct (getAllErrors_never_raises (Sample.world NoFile)) as (_ & _ & H & _).
    apply H; reflexivity.
  - destruct (getAllErrors_never_raises (Sample.world (File (Garbage "[{"))))
      as (_ & _ & _ & H & _).
    apply (H "[{"); reflexivity.
  - destruct (getAllErrors_never_raises (Sample.world (File (Json Sample.three))))
      as (_ & _ & _ & _ & H).
    apply H; reflexivity.
Defined.

(** ** The fallback classifier *)

Section Scan.

Variable text : string.

Let count := matchCount text.

Lemma matchCount_nonneg (p : ErrorPattern) : 0 <= matchCount text p.
Proof. unfold matchCount; lia. Qed.

(** The loop either keeps its start, when no pattern beats [n0], or ends
    on the first pattern that reaches the highest count. *)
Lemma scanPatterns_spec (patterns : list ErrorPattern) :
  forall start n0 best n,
    scanPatterns text patterns (start, n0) = (best, n) ->
    (best = start /\ n = n0 /\ Forall (fun p => count p <= n0) patterns) \/
    (exists earlier later,
        patterns = (earlier ++ best :: later)%list /\ n = count best /\ n0 < n /\
        Forall (fun q => count q < n) earlier /\
        Forall (fun q => count q <= n) later).
Proof.
  unfold scanPatterns.
  induction patterns as [ | p ps IH]; intros start n0 best n H.
  - cbn in H. injection H as <- <-. left; auto.
  - cbn [fold_left] in H. unfold considerPattern at 2 in H.
    fold count in H.
    destruct (n0 <? count p) eqn:E.
    + apply Z.ltb_lt in E.
      destruct (IH _ _ _ _ H)
        as [(-> & -> & Hps) | (pre & post & -> & -> & Hlt & Hpre & Hpost)].
      * right. exists [], ps.
        split; [reflexivity | ]. split; [reflexivity | ]. split; [exact E | ].
        split; [constructor | exact Hps].
      * right. exists (p :: pre), post.
        split; [reflexivity | ]. split; [reflexivity | ]. split; [lia | ].
        split; [constructor; [lia | exact Hpre] | exact Hpost].
    + apply Z.ltb_ge in E.
      destruct (IH _ _ _ _ H)
        as [(-> & -> & Hps) | (pre & post & -> & -> & Hlt & Hpre & Hpost)].
      * left. split; [reflexivity | ]. split; [reflexivity | ].
        constructor; [exact E | exact Hps].
      * right. exists (p :: pre), post.
        split; [reflexivity | ]. split; [reflexivity | ]. split; [exact Hlt | ].
        split; [constructor; [lia | exact Hpre] | exact Hpost].
Qed.

(** The three counts decide the pattern. *)
Lemma bestMatch_cases :
  let d := count ERROR_PATTERNS.database in
  let n := count ERROR_PATTERNS.network in
  let r := count ERROR_PATTERNS.runtime in
  bestMatch text =
    if 0 <? d
    then if d <? n
         then if n <? r then ERROR_PATTERNS.runtime else ERROR_PATTERNS.network
         else if d <? r then ERROR_PATTERNS.runtime else ERROR_PATTERNS.database
    else if 0 <? n
         then if n <? r then ERROR_PATTERNS.runtime else ERROR_PATTERNS.network
         else ERROR_PATTERNS.runtime.
Proof.
  intros d n r.
  unfold bestMatch, scanPatterns, ERROR_PATTERNS.values.
  cbn [fold_left]. unfold considerPattern. fold count. fold d n r.
  destruct (0 <? d); [destruct (d <? n) | destruct (0 <? n)];
    try destruct (n <? r); try destruct (d <? r); try destruct (0 <? r);
    reflexivity.
Qed.

Lemma database_count_two :
  includes text "timeout" = true -> includes text "database" = true ->
  2 <= count ERROR_PATTERNS.database.
Proof.
  intros Ht Hd. unfold count, matchCount, ERROR_PATTERNS.database.
  cbn [keywords filter]. rewrite Ht, Hd.
  repeat match goal with
         | |- context [if ?b then _ else _] => destruct b
         end; cbn [List.length]; lia.
Qed.

End Scan.

(** C9. Whatever the input, the fallback result has severity [high], no
    related errors and no analysis metadata. *)
Theorem fallbackAnalyzer_always_high
    (errorMessage errorType stackTrace context : string) :
  let result := fallbackAnalyzer errorMessage errorType stackTrace context in
  severity result = high /\
  severity result <> critical /\ severity result <> medium /\ severity result <> low /\
  relatedErrors result = [] /\
  analysisMetadata result = None.
Proof.
  cbn zeta. unfold fallbackAnalyzer; cbn [severity relatedErrors analysisMetadata].
  assert (H : pattern_severity
                (bestMatch (fullText errorMessage errorType stackTrace context)) = high).
  { rewrite bestMatch_cases.
    repeat match goal with
           | |- context [if ?b then _ else _] => destruct b
           end; reflexivity. }
  rewrite H. repeat split; discriminate.
Qed.

(** C3, amended.  The fallback classifier takes severity, category and
    recommendations from the pattern with the highest keyword count over the
    lowercased concatenation of the four fields; among patterns that tie on
    the highest count it takes the earliest declared; when every pattern
    counts zero it takes the default, [runtime].  An input that contains
    "timeout" and "database" is classified "Database" exactly when the
    database pattern counts at least as many keywords as the network pattern
    and as the runtime pattern. *)
Theorem fallbackAnalyzer_selects_pattern
    (errorMessage errorType stackTrace context : string) :
  let text := fullText errorMessage errorType stackTrace context in
  let best := bestMatch text in
  let result := fallbackAnalyzer errorMessage errorType stackTrace context in
  (severity result = pattern_severity best /\
   category result = pattern_category best /\
   recommendations result = pattern_recommendations best) /\
  In best ERROR_PATTERNS.values /\
  (forall p, In p ERROR_PATTERNS.values -> matchCount text p <= matchCount text best) /\
  ((exists p, In p ERROR_PATTERNS.values /\ 0 < matchCount text p) ->
   exists earlier later,
     ERROR_PATTERNS.values = (earlier ++ best :: later)%list /\
     Forall (fun q => matchCount text q < matchCount text best) earlier) /\
  ((forall p, In p ERROR_PATTERNS.values -> matchCount text p = 0) ->
   best = ERROR_PATTERNS.runtime) /\
  (includes text "timeout" = true -> includes text "database" = true ->
   (category result = "Database" <->
    matchCount text ERROR_PATTERNS.network <= matchCount text ERROR_PATTERNS.database /\
    matchCount text ERROR_PATTERNS.runtime <= matchCount text ERROR_PATTERNS.database)).
Proof.
  intros text best result.
  split; [split; [ | split]; reflexivity | ].
  assert (Hrun : In ERROR_PATTERNS.runtime ERROR_PATTERNS.values)
    by (cbn; auto).
  destruct (scanPatterns text ERROR_PATTERNS.values (ERROR_PATTERNS.runtime, 0))
    as [b n] eqn:Hscan.
  assert (Hbest : best = b) by (unfold best, bestMatch; rewrite Hscan; reflexivity).
  destruct (scanPatterns_spec text _ _ _ _ _ Hscan)
    as [(Hb & Hn & Hall) | (earlier & later & Hsplit & Hn & Hpos & Hearlier & Hlater)].
  - (* no pattern counts anything *)
    rewrite Forall_forall in Hall.
    assert (Hzero : forall p, In p ERROR_PATTERNS.values -> matchCount text p = 0).
    { intros p Hp. specialize (Hall p Hp). pose proof (matchCount_nonneg text p). lia. }
    split; [rewrite Hbest, Hb; exact Hrun | ].
    split; [intros p Hp; rewrite (Hzero p Hp); apply matchCount_nonneg | ].
    split; [intros (p & Hp & Hlt); rewrite (Hzero p Hp) in Hlt; lia | ].
    split; [intros _; rewrite Hbest; exact Hb | ].
    intros Ht Hd. pose proof (database_count_two text Ht Hd) as H2.
    rewrite (Hzero ERROR_PATTERNS.database) in H2 by (cbn; auto). lia.
  - (* the first pattern to reach the highest count *)
    subst n. rewrite <- Hbest in *. clear Hbest b Hscan.
    assert (Hin : In best ERROR_PATTERNS.values)
      by (rewrite Hsplit; apply in_or_app; right; left; reflexivity).
    split; [exact Hin | ].
    split.
    { intros p Hp. rewrite Hsplit in Hp.
      apply in_app_or in Hp. destruct Hp as [Hp | [<- | Hp]].
      - rewrite Forall_forall in Hearlier. specialize (Hearlier p Hp). lia.
      - lia.
      - rewrite Forall_forall in Hlater. exact (Hlater p Hp). }
    split; [intros _; exists earlier, later; split; assumption | ].
    split; [intros Hzero; rewrite (Hzero best Hin) in Hpos; lia | ].
    intros Ht Hd. pose proof (database_count_two text Ht Hd) as H2.
    unfold result, fallbackAnalyzer; cbn [category]. fold text.
    rewrite bestMatch_cases.
    set (d := matchCount text ERROR_PATTERNS.database) in *.
    set (n := matchCount text ERROR_PATTERNS.network) in *.
    set (r := matchCount text ERROR_PATTERNS.runtime) in *.
    destruct (0 <? d) eqn:E0; [ | apply Z.ltb_ge in E0; lia].
    destruct (d <? n) eqn:E1; [destruct (n <? r) eqn:E2 | destruct (d <? r) eqn:E2];
      cbn [pattern_category ERROR_PATTERNS.runtime ERROR_PATTERNS.network
           ERROR_PATTERNS.database];
      rewrite ?Z.ltb_lt, ?Z.ltb_ge in *;
      (split; [try discriminate; intros _; lia | intros; try reflexivity; lia]).
Qed.

Lemma fallbackAnalyzer_selects_pattern_witness :
  category (fallbackAnalyzer "database timeout" "Error" "" "") = "Database" /\
  bestMatch (fullText "service stopped" "Error" "" "") = ERROR_PATTERNS.runtime /\
  exists earlier later,
    ERROR_PATTERNS.values
    = (earlier ++ bestMatch (fullText "request timeout" "Error" "" "") :: later)%list /\
    Forall (fun q => matchCount (fullText "request timeout" "Error" "" "") q
                     < matchCount (fullText "request timeout" "Error" "" "")
                         (bestMatch (fullText "request timeout" "Error" "" "")))
           earlier.
Proof.
  split; [ | split].
  - destruct (fallbackAnalyzer_selects_pattern "database timeout" "Error" "" "")
      as (_ & _ & _ & _ & _ & H).
    apply H; [reflexivity | reflexivity | ].
    split; vm_compute; discriminate.
  - destruct (fallbackAnalyzer_selects_pattern "service stopped" "Error" "" "")
      as (_ & _ & _ & _ & H & _).
    apply H. intros p [<- | [<- | [<- | []]]]; reflexivity.
  - destruct (fallbackAnalyzer_selects_pattern "request timeout" "Error" "" "")
      as (_ & _ & _ & H & _).
    apply H. exists ERROR_PATTERNS.network.
    split; [right; left; reflexivity | vm_compute; reflexivity].
Defined.

(** C3, as stated, fails: this input contains "timeout" and "database", and
    the network pattern counts three keywords ("fetch", "http", "timeout")
    against two for the database pattern. *)
Lemma timeout_database_classified_network :
  let errorMessage := "Timeout while fetching http://api/users from database" in
  let text := fullText errorMessage "Error" "" "" in
  includes text "timeout" = true /\
  includes text "database" = true /\
  matchCount text ERROR_PATTERNS.database = 2 /\
  matchCount text ERROR_PATTERNS.network = 3 /\
  category (fallbackAnalyzer errorMessage "Error" "" "") = "Network" /\
  category (fallbackAnalyzer errorMessage "Error" "" "") <> "Database".
Proof.
  cbv zeta. split; [ | split; [ | split; [ | split; [ | split]]]];
    try (vm_compute; reflexivity).
  vm_compute; discriminate.
Qed.

(** ** The analysis gateway *)

(** One call is logged, and the result follows the outcome of that call. *)
Lemma analyzeError_run (errorMessage errorType stackTrace context : string) (w : World) :
  analyzeError errorMessage errorType stackTrace context w =
  (with_call (requestOf errorMessage errorType stackTrace context) w,
   Ok (analysisOf (outcomeOf w errorMessage errorType stackTrace context)
                  errorMessage errorType stackTrace context)).
Proof.
  unfold analyzeError, callAnalysisApi, try_catch, bind, fetch, outcomeOf,
    analysisOf, requestOf.
  destruct (service w _ _) as [ | | code [ | | [detail | ]] | [ | | data]];
    reflexivity.
Qed.

(** A 2xx answer with a well-formed body is translated field by field. *)
Example analyzeError_translates :
  snd (analyzeError "pool exhausted" "Error" "" "" (Sample.servedWorld NoFile))
  = Ok {| severity := critical; rootCause := "pool exhausted";
          recommendations := ["raise pool size"]; relatedErrors := [];
          category := "Database"; confidenceScore := Some (9 # 10);
          analysisMetadata := None |}.
Proof. reflexivity. Qed.

(** With the service unavailable, a [TypeError] on an undefined value is
    classified "Runtime", severity [high], confidence 0.5. *)
Example analyzeError_runtime_scenario :
  let result := analyzeError "Cannot read property 'map' of undefined" "TypeError"
                             "" "" (Sample.world NoFile) in
  option_map category
    match snd result with Ok r => Some r | Throw _ => None end = Some "Runtime" /\
  option_map severity
    match snd result with Ok r => Some r | Throw _ => None end = Some high /\
  option_map confidenceScore
    match snd result with Ok r => Some r | Throw _ => None end = Some (Some (1 # 2)).
Proof. cbv zeta. split; [ | split]; vm_compute; reflexivity. Qed.

(** C4. [analyzeError] never raises.  When its external call fails (the
    service is unreachable, the wait times out, the status is not 2xx, the
    body is malformed) it returns the fallback classifier's result for the
    same input, whose [confidenceScore] is 0.5 and whose [rootCause] is
    "<errorType>: <errorMessage>". *)
Theorem analyzeError_never_raises
    (errorMessage errorType stackTrace context : string) (w : World) :
  (exists result,
      snd (analyzeError errorMessage errorType stackTrace context w) = Ok result) /\
  (failed (outcomeOf w errorMessage errorType stackTrace context) ->
   exists result,
     snd (analyzeError errorMessage errorType stackTrace context w) = Ok result /\
     result = fallbackAnalyzer errorMessage errorType stackTrace context /\
     confidenceScore result = Some (1 # 2) /\
     rootCause result = (errorType ++ ": " ++ errorMessage)%string).
Proof.
  rewrite analyzeError_run; cbn [snd].
  split; [eexists; reflexivity | ].
  intros Hfailed. eexists. split; [reflexivity | ].
  assert (H : analysisOf (outcomeOf w errorMessage errorType stackTrace context)
                errorMessage errorType stackTrace context
              = fallbackAnalyzer errorMessage errorType stackTrace context).
  { unfold analysisOf.
    destruct (outcomeOf w errorMessage errorType stackTrace context)
      as [ | | code body | [ | | data]]; try reflexivity.
    contradiction. }
  rewrite H. split; [reflexivity | split; reflexivity].
Qed.

Lemma analyzeError_never_raises_witness :
  exists result,
    snd (analyzeError "pool exhausted" "Error" "" ""
           (Sample.world (File (Json [])))) = Ok result /\
    result = fallbackAnalyzer "pool exhausted" "Error" "" "" /\
    confidenceScore result = Some (1 # 2) /\
    rootCause result = "Error: pool exhausted".
Proof.
  destruct (analyzeError_never_raises "pool exhausted" "Error" "" ""
              (Sample.world (File (Json [])))) as (_ & H).
  apply H. exact I.
Defined.

(** ** Creating records *)

Lemma saveError_run (error : NewError) (w : World) :
  saveError error w =
  (with_disk (File (Json (stored w ++ [created error w])))
             (with_tick (with_tick (ensured w))),
   Ok (created error w)).
Proof.
  destruct w as [d c t s o]; destruct d as [ | | [text | errors]]; reflexivity.
Qed.

(** C5. A POST whose body lacks [errorMessage] or [errorType] (absent or
    empty) is answered 400 and leaves the world as it was: nothing is
    written and the analysis service is not called.  A POST with both fields
    non-empty is answered 201 with the record that was appended to the
    stored collection. *)
Theorem POST_validates (fields : PostFields) (w : World) :
  (missing (body_errorMessage fields) \/ missing (body_errorType fields) ->
   POST (BodyObject fields) w =
   (w, Ok {| status := 400; payload := ErrorPayload "Missing required fields" |})) /\
  (forall message type,
      body_errorMessage fields = Some message -> message <> "" ->
      body_errorType fields = Some type -> type <> "" ->
      exists saved w',
        POST (BodyObject fields) w =
        (w', Ok {| status := 201; payload := RecordPayload saved |}) /\
        disk w' = File (Json (stored w ++ [saved])) /\
        errorMessage saved = message /\
        errorType saved = type /\
        List.length (outbound w') = S (List.length (outbound w))).
Proof.
  split.
  - intros H.
    assert (Hguard : (negb (truthy (body_errorMessage fields))
                      || negb (truthy (body_errorType fields)))%bool = true).
    { apply orb_true_iff.
      destruct H as [[H | H] | [H | H]]; rewrite H; cbn; auto. }
    unfold POST, try_catch, bind, request_json, ret. rewrite Hguard. reflexivity.
  - intros message type Hm Hmne Ht Htne.
    assert (Hguard : (negb (truthy (body_errorMessage fields))
                      || negb (truthy (body_errorType fields)))%bool = false).
    { rewrite Hm, Ht. cbn [truthy].
      apply String.eqb_neq in Hmne, Htne. rewrite Hmne, Htne. reflexivity. }
    unfold POST, try_catch, bind at 1, request_json, ret at 1. rewrite Hguard.
    unfold bind. rewrite analyzeError_run, saveError_run. unfold ret.
    eexists; eexists. split; [reflexivity | ].
    rewrite Hm, Ht.
    destruct w as [d c t s o]; destruct d as [ | | [text | errors]];
      repeat split; reflexivity.
Qed.

Lemma POST_validates_witness :
  POST (BodyObject (Sample.fields (Some "") (Some "Error")))
       (Sample.world (File (Json Sample.three)))
  = (Sample.world (File (Json Sample.three)),
     Ok {| status := 400; payload := ErrorPayload "Missing required fields" |}) /\
  exists saved w',
    POST (BodyObject (Sample.fields (Some "pool exhausted") (Some "Error")))
         (Sample.world (File (Json Sample.three)))
    = (w', Ok {| status := 201; payload := RecordPayload saved |}) /\
    disk w' = File (Json (Sample.three ++ [saved])) /\
    errorMessage saved = "pool exhausted" /\
    errorType saved = "Error" /\
    List.length (outbound w') = 1%nat.
Proof.
  split.
  - destruct (POST_validates (Sample.fields (Some "") (Some "Error"))
                (Sample.world (File (Json Sample.three)))) as (H & _).
    apply H. left; right; reflexivity.
  - destruct (POST_validates (Sample.fields (Some "pool exhausted") (Some "Error"))
                (Sample.world (File (Json Sample.three)))) as (_ & H).
    apply (H "pool exhausted" "Error"); [reflexivity | discriminate | reflexivity | discriminate].
Defined.

(** ** Listing the most recent records *)

Lemma insert_perm (x : ErrorRecord) (l : list ErrorRecord) :
  Permutation (insert byTimestampDescending x l) (x :: l).
Proof.
  induction l as [ | y l IH]; cbn [insert].
  - apply Permutation_refl.
  - destruct (byTimestampDescending x y <=? 0).
    + apply Permutation_refl.
    + eapply perm_trans; [apply perm_skip, IH | apply perm_swap].
Qed.

Lemma sort_perm (l : list ErrorRecord) :
  Permutation (sort byTimestampDescending l) l.
Proof.
  induction l as [ | x l IH]; cbn [sort fold_right].
  - constructor.
  - eapply perm_trans; [apply insert_perm | apply perm_skip, IH].
Qed.

Lemma insert_descending (x : ErrorRecord) (l : list ErrorRecord) :
  descending l -> descending (insert byTimestampDescending x l).
Proof.
  unfold descending.
  induction 1 as [ | y l Hl IH Hy]; cbn [insert].
  - constructor; constructor.
  - unfold byTimestampDescending at 1.
    destruct (timestamp y - timestamp x <=? 0) eqn:E.
    + apply Z.leb_le in E.
      constructor; [constructor; assumption | ].
      constructor; [lia | ].
      eapply Forall_impl; [ | exact Hy]. cbn; intros; lia.
    + apply Z.leb_gt in E.
      constructor; [exact IH | ].
      eapply Permutation_Forall;
        [apply Permutation_sym, insert_perm | ].
      constructor; [lia | exact Hy].
Qed.

Lemma sort_descending (l : list ErrorRecord) :
  descending (sort byTimestampDescending l).
Proof.
  induction l as [ | x l IH]; cbn [sort fold_right].
  - constructor.
  - apply insert_descending, IH.
Qed.

Lemma descending_app (l1 l2 : list ErrorRecord) :
  descending (l1 ++ l2) ->
  descending l1 /\
  forall a b, In a l1 -> In b l2 -> timestamp a >= timestamp b.
Proof.
  unfold descending.
  induction l1 as [ | x l1 IH]; cbn [app]; intros H.
  - split; [constructor | intros a b []].
  - inversion H as [ | ? ? Htail Hhead]; subst.
    destruct (IH Htail) as [Hl1 Hcross].
    rewrite Forall_app in Hhead. destruct Hhead as [H1 H2].
    split; [constructor; assumption | ].
    intros a b [<- | Ha] Hb.
    + rewrite Forall_forall in H2. exact (H2 b Hb).
    + exact (Hcross a b Ha Hb).
Qed.

(** [slice(0, n)] keeps the first [min n len] elements. *)
Lemma slice_prefix {A : Type} (l : list A) (n : Z) :
  0 <= n ->
  slice l (Int 0) (Int n)
  = firstn (Z.to_nat (Z.min n (Z.of_nat (List.length l)))) l.
Proof.
  intros Hn. unfold slice, toIntegerOrInfinity, clampIndex.
  destruct (0 <? 0) eqn:E0; [apply Z.ltb_lt in E0; lia | ].
  destruct (n <? 0) eqn:En; [apply Z.ltb_lt in En; lia | ].
  replace (Z.min 0 (Z.of_nat (List.length l))) with 0 by lia.
  cbn [Z.to_nat skipn]. f_equal. lia.
Qed.

(** [slice(0, 0)] and [slice(0, NaN)] keep nothing. *)
Lemma slice_nothing {A : Type} (l : list A) (last : number) :
  last = Int 0 \/ last = NaN -> slice l (Int 0) last = [].
Proof.
  intros [-> | ->]; unfold slice, toIntegerOrInfinity, clampIndex;
    cbn [Z.ltb Z.compare];
    replace (Z.min 0 (Z.of_nat (List.length l))) with 0 by lia;
    reflexivity.
Qed.

Lemma getRecentErrors_run (limit : option number) (w : World) :
  getRecentErrors limit w =
  (ensured w,
   Ok (slice (sort byTimestampDescending (stored w)) (Int 0)
             match limit with Some n => n | None => Int 10 end)).
Proof.
  unfold getRecentErrors, bind. rewrite getAllErrors_run. reflexivity.
Qed.

(** C6. For every stored collection and every [n >= 0], [getRecentErrors n]
    returns exactly [min n size] records, most recent first: they are
    records of the collection, and none of the records left out is more
    recent than one returned.  Without an argument the limit is 10. *)
Theorem getRecentErrors_most_recent (w : World) (n : Z) :
  0 <= n ->
  exists recent older,
    snd (getRecentErrors (Some (Int n)) w) = Ok recent /\
    Z.of_nat (List.length recent) = Z.min n (Z.of_nat (List.length (stored w))) /\
    descending recent /\
    Permutation (recent ++ older) (stored w) /\
    (forall a b, In a recent -> In b older -> timestamp a >= timestamp b) /\
    getRecentErrors None w = getRecentErrors (Some (Int 10)) w.
Proof.
  intros Hn. rewrite !getRecentErrors_run; cbn [snd].
  set (sorted := sort byTimestampDescending (stored w)).
  assert (Hlen : List.length sorted = List.length (stored w))
    by (apply Permutation_length, sort_perm).
  set (k := Z.to_nat (Z.min n (Z.of_nat (List.length sorted)))).
  exists (firstn k sorted), (skipn k sorted).
  split; [rewrite slice_prefix by exact Hn; reflexivity | ].
  split; [rewrite length_firstn; unfold k; lia | ].
  pose proof (sort_descending (stored w)) as Hsorted. fold sorted in Hsorted.
  rewrite <- (firstn_skipn k sorted) in Hsorted.
  apply descending_app in Hsorted. destruct Hsorted as [Hrecent Hcross].
  split; [exact Hrecent | ].
  split; [rewrite firstn_skipn; apply sort_perm | ].
  split; [exact Hcross | reflexivity].
Qed.

Lemma getRecentErrors_most_recent_witness :
  exists recent older,
    snd (getRecentErrors (Some (Int 2)) (Sample.world (File (Json Sample.three))))
    = Ok recent /\
    Z.of_nat (List.length recent)
    = Z.min 2 (Z.of_nat (List.length (stored (Sample.world (File (Json Sample.three)))))) /\
    descending recent /\
    Permutation (recent ++ older) (stored (Sample.world (File (Json Sample.three)))) /\
    (forall a b, In a recent -> In b older -> timestamp a >= timestamp b) /\
    getRecentErrors None (Sample.world (File (Json Sample.three)))
    = getRecentErrors (Some (Int 10)) (Sample.world (File (Json Sample.three))).
Proof.
  apply (getRecentErrors_most_recent (Sample.world (File (Json Sample.three))) 2).
  lia.
Defined.

(** ** Deleting records *)

Section ById.

Variable target : string.

Let other (e : ErrorRecord) : bool := negb (id e =? target)%string.

Lemma filter_absent (l : list ErrorRecord) :
  ~ In target (map id l) -> filter other l = l.
Proof.
  induction l as [ | x l IH]; cbn [map filter In]; intros H.
  - reflexivity.
  - unfold other at 1. destruct (String.eqb_spec (id x) target) as [E | E].
    + exfalso; apply H; left; exact E.
    + cbn [negb]. f_equal. apply IH. intros Hin; apply H; right; exact Hin.
Qed.

Lemma filter_length_absent (l : list ErrorRecord) :
  List.length (filter other l) = List.length l -> ~ In target (map id l).
Proof.
  induction l as [ | x l IH]; cbn [map filter In List.length]; intros H.
  - intros [].
  - pose proof (filter_length_le other l) as Hle.
    unfold other at 1 in H. destruct (String.eqb_spec (id x) target) as [E | E];
      cbn [negb List.length] in H.
    + lia.
    + intros [Hx | Hin]; [exact (E Hx) | ].
      apply IH; [lia | exact Hin].
Qed.

(** With distinct ids, exactly the one record that bears the id goes. *)
Lemma filter_present (l : list ErrorRecord) :
  NoDup (map id l) -> In target (map id l) ->
  exists before victim after,
    l = (before ++ victim :: after)%list /\ id victim = target /\
    filter other l = (before ++ after)%list /\
    ~ In target (map id (before ++ after)).
Proof.
  induction l as [ | x l IH]; cbn [map In]; intros Hnd Hin.
  - destruct Hin.
  - inversion Hnd as [ | ? ? Hx Hl]; subst.
    destruct (String.eqb_spec (id x) target) as [E | E].
    + exists [], x, l. cbn [app filter].
      unfold other at 1. rewrite E, String.eqb_refl. cbn [negb].
      rewrite E in Hx.
      split; [reflexivity | ]. split; [reflexivity | ].
      split; [apply filter_absent; exact Hx | exact Hx].
    + destruct Hin as [Hin | Hin]; [contradiction | ].
      destruct (IH Hl Hin) as (before & victim & after & -> & Hv & Hf & Hnot).
      exists (x :: before), victim, after. cbn [app filter map].
      unfold other at 1. apply String.eqb_neq in E. rewrite E. cbn [negb].
      split; [reflexivity | ]. split; [exact Hv | ].
      split; [f_equal; exact Hf | ].
      cbn [In]. intros [Hx' | Hin']; [ | exact (Hnot Hin')].
      apply String.eqb_neq in E. exact (E Hx').
Qed.

Lemma deleteError_run (w : World) :
  deleteError target w =
  let filtered := filter other (stored w) in
  if (List.length filtered =? List.length (stored w))%nat
  then (ensured w, Ok false)
  else (with_disk (File (Json filtered)) (ensured w), Ok true).
Proof.
  unfold deleteError, bind.
  rewrite ensureDbFile_run, getAllErrors_run, ensured_ensured, stored_ensured.
  cbv zeta. fold other.
  destruct (List.length (filter other (stored w)) =? List.length (stored w))%nat.
  - reflexivity.
  - rewrite writeFileSync_ensured. reflexivity.
Qed.

End ById.

(** C7. For an id that no stored record bears, [deleteError] returns false
    and the stored collection is the same afterwards (an existing file is
    not written at all).  For an id that is present, the ids of the
    collection being distinct, it removes exactly that record and returns
    true, and deleting the same id again returns false. *)
Theorem deleteError_removes_by_id (target : string) (w : World) :
  (~ In target (map id (stored w)) ->
   snd (deleteError target w) = Ok false /\
   stored (fst (deleteError target w)) = stored w /\
   (forall content, disk w = File content -> fst (deleteError target w) = w)) /\
  (NoDup (map id (stored w)) -> In target (map id (stored w)) ->
   exists before victim after w',
     deleteError target w = (w', Ok true) /\
     stored w = (before ++ victim :: after)%list /\
     id victim = target /\
     stored w' = (before ++ after)%list /\
     List.length (stored w) = S (List.length (stored w')) /\
     deleteError target w' = (w', Ok false)).
Proof.
  split.
  - intros Habsent. rewrite deleteError_run. cbv zeta.
    rewrite (filter_absent target _ Habsent), Nat.eqb_refl. cbn [fst snd].
    split; [reflexivity | ]. split; [apply stored_ensured | ].
    intros content H. exact (ensured_file _ _ H).
  - intros Hnd Hin.
    destruct (filter_present target _ Hnd Hin)
      as (before & victim & after & Hsplit & Hid & Hfilter & Hgone).
    exists before, victim, after.
    exists (with_disk (File (Json (before ++ after))) (ensured w)).
    assert (Hstored : stored (with_disk (File (Json (before ++ after))) (ensured w))
                      = (before ++ after)%list) by reflexivity.
    split.
    { rewrite deleteError_run. cbv zeta. rewrite Hfilter.
      destruct (Nat.eqb_spec (List.length (before ++ after)) (List.length (stored w)))
        as [E | E]; [ | reflexivity].
      rewrite Hsplit, !length_app in E. cbn [List.length] in E. lia. }
    split; [exact Hsplit | ]. split; [exact Hid | ]. split; [exact Hstored | ].
    split.
    { rewrite Hstored, Hsplit, !length_app. cbn [List.length]. lia. }
    rewrite deleteError_run. cbv zeta. rewrite Hstored.
    rewrite (filter_absent target _ Hgone), Nat.eqb_refl.
    reflexivity.
Qed.

Lemma deleteError_removes_by_id_witness :
  (snd (deleteError "7" (Sample.world (File (Json Sample.three)))) = Ok false /\
   stored (fst (deleteError "7" (Sample.world (File (Json Sample.three)))))
   = stored (Sample.world (File (Json Sample.three))) /\
   (forall content,
       disk (Sample.world (File (Json Sample.three))) = File content ->
       fst (deleteError "7" (Sample.world (File (Json Sample.three))))
       = Sample.world (File (Json Sample.three)))) /\
  exists before victim after w',
    deleteError "2" (Sample.world (File (Json Sample.three))) = (w', Ok true) /\
    stored (Sample.world (File (Json Sample.three)))
    = (before ++ victim :: after)%list /\
    id victim = "2" /\
    stored w' = (before ++ after)%list /\
    List.length (stored (Sample.world (File (Json Sample.three))))
    = S (List.length (stored w')) /\
    deleteError "2" w' = (w', Ok false).
Proof.
  split.
  - destruct (deleteError_removes_by_id "7" (Sample.world (File (Json Sample.three))))
      as (H & _).
    apply H. cbn. intros [H7 | [H7 | [H7 | []]]]; discriminate.
  - destruct (deleteError_removes_by_id "2" (Sample.world (File (Json Sample.three))))
      as (_ & H).
    apply H.
    + cbn. repeat constructor; cbn; intuition discriminate.
    + cbn. right; left; reflexivity.
Defined.

(** ** Updating records *)

Section Update.

Variable target : string.

Let matches (e : ErrorRecord) : bool := (id e =? target)%string.

Lemma findIndex_absent (l : list ErrorRecord) :
  ~ In target (map id l) -> findIndex matches l = None.
Proof.
  induction l as [ | x l IH]; cbn [map findIndex In]; intros H.
  - reflexivity.
  - unfold matches at 1. destruct (String.eqb_spec (id x) target) as [E | E].
    + exfalso; apply H; left; exact E.
    + rewrite IH; [reflexivity | ]. intros Hin; apply H; right; exact Hin.
Qed.

(** [findIndex] stops on the first record that bears the id. *)
Lemma findIndex_present (l : list ErrorRecord) :
  In target (map id l) ->
  exists before current after,
    l = (before ++ current :: after)%list /\
    id current = target /\
    ~ In target (map id before) /\
    findIndex matches l = Some (List.length before) /\
    nth_error l (List.length before) = Some current /\
    forall v, assign l (List.length before) v = (before ++ v :: after)%list.
Proof.
  induction l as [ | x l IH]; cbn [map In]; intros Hin.
  - destruct Hin.
  - destruct (String.eqb_spec (id x) target) as [E | E].
    + exists [], x, l. cbn [app List.length findIndex nth_error assign map In].
      unfold matches. rewrite E, String.eqb_refl.
      repeat (split; [first [reflexivity | tauto] | ]). reflexivity.
    + destruct Hin as [Hin | Hin]; [contradiction | ].
      destruct (IH Hin) as (before & current & after & -> & Hid & Hnot & Hfind & Hnth & Hassign).
      exists (x :: before), current, after.
      cbn [app List.length findIndex nth_error assign map In].
      unfold matches at 1. apply String.eqb_neq in E. rewrite E.
      rewrite Hfind. cbn [option_map].
      split; [reflexivity | ]. split; [exact Hid | ].
      split; [apply String.eqb_neq in E; intros [Hx | Hb]; [exact (E Hx) | exact (Hnot Hb)] | ].
      split; [reflexivity | ]. split; [exact Hnth | ].
      intros v. rewrite Hassign. reflexivity.
Qed.

Lemma updateError_run (updates : ErrorUpdates) (w : World) :
  updateError target updates w =
  match findIndex matches (stored w) with
  | None => (ensured w, Ok None)
  | Some index =>
      match nth_error (stored w) index with
      | None => (ensured w, Ok None)
      | Some current =>
          (with_disk (File (Json (assign (stored w) index (spread current updates))))
                     (ensured w),
           Ok (Some (spread current updates)))
      end
  end.
Proof.
  unfold updateError, bind.
  rewrite ensureDbFile_run, getAllErrors_run, ensured_ensured, stored_ensured.
  fold matches.
  destruct (findIndex matches (stored w)) as [index | ]; [ | reflexivity].
  destruct (nth_error (stored w) index) as [current | ]; [ | reflexivity].
  rewrite writeFileSync_ensured. reflexivity.
Qed.

End Update.

(** C2, amended.  [updateError] replaces the first record that bears the id
    by its shallow merge with the updates and leaves every other record as
    it was.  The merged record keeps its [id] when the updates carry no
    [id], and its [timestamp] when they carry no [timestamp]; a key the
    updates do carry overwrites the stored value. *)
Theorem updateError_merges (target : string) (updates : ErrorUpdates) (w : World) :
  (~ In target (map id (stored w)) ->
   snd (updateError target updates w) = Ok None /\
   stored (fst (updateError target updates w)) = stored w) /\
  (In target (map id (stored w)) ->
   exists before current after w',
     updateError target updates w = (w', Ok (Some (spread current updates))) /\
     stored w = (before ++ current :: after)%list /\
     id current = target /\
     ~ In target (map id before) /\
     stored w' = (before ++ spread current updates :: after)%list /\
     id (spread current updates) = orElse (upd_id updates) (id current) /\
     timestamp (spread current updates)
     = orElse (upd_timestamp updates) (timestamp current) /\
     (upd_id updates = None -> id (spread current updates) = id current) /\
     (upd_timestamp updates = None ->
      timestamp (spread current updates) = timestamp current)).
Proof.
  split.
  - intros Habsent. rewrite updateError_run, (findIndex_absent target _ Habsent).
    cbn [fst snd]. split; [reflexivity | apply stored_ensured].
  - intros Hin.
    destruct (findIndex_present target _ Hin)
      as (before & current & after & Hsplit & Hid & Hnot & Hfind & Hnth & Hassign).
    exists before, current, after.
    exists (with_disk (File (Json (before ++ spread current updates :: after)))
                      (ensured w)).
    split.
    { rewrite updateError_run, Hfind, Hnth, Hassign. reflexivity. }
    split; [exact Hsplit | ]. split; [exact Hid | ]. split; [exact Hnot | ].
    split; [reflexivity | ]. split; [reflexivity | ]. split; [reflexivity | ].
    split; intros H; cbn [spread id timestamp]; rewrite H; reflexivity.
Qed.

Lemma updateError_merges_witness :
  snd (updateError "7" Sample.reword (Sample.world (File (Json Sample.three))))
  = Ok None /\
  exists before current after w',
    updateError "2" Sample.reword (Sample.world (File (Json Sample.three)))
    = (w', Ok (Some (spread current Sample.reword))) /\
    stored (Sample.world (File (Json Sample.three)))
    = (before ++ current :: after)%list /\
    stored w' = (before ++ spread current Sample.reword :: after)%list /\
    id (spread current Sample.reword) = id current /\
    timestamp (spread current Sample.reword) = timestamp current.
Proof.
  split.
  - destruct (updateError_merges "7" Sample.reword
                (Sample.world (File (Json Sample.three)))) as (H & _).
    apply H. cbn. intros [H7 | [H7 | [H7 | []]]]; discriminate.
  - destruct (updateError_merges "2" Sample.reword
                (Sample.world (File (Json Sample.three)))) as (_ & H).
    destruct H as (before & current & after & w' & H1 & H2 & _ & _ & H5 & _ & _ & H8 & H9).
    + cbn. right; left; reflexivity.
    + exists before, current, after, w'.
      split; [exact H1 | ]. split; [exact H2 | ]. split; [exact H5 | ].
      split; [apply H8 | apply H9]; reflexivity.
Defined.

(** C2, as stated, fails: updates that carry [id] and [timestamp] overwrite
    both fields of the stored record. *)
Lemma updateError_overwrites_id_and_timestamp :
  let before := Sample.record "1" 10 in
  let after := Sample.record "2" 99 in
  let w := Sample.world (File (Json [before])) in
  stored w = [before] /\
  snd (updateError "1" Sample.rekey w) = Ok (Some after) /\
  stored (fst (updateError "1" Sample.rekey w)) = [after] /\
  id after <> id before /\
  timestamp after <> timestamp before.
Proof.
  cbv zeta.
  split; [reflexivity | ]. split; [reflexivity | ]. split; [reflexivity | ].
  split; cbn; discriminate.
Qed.

(** ** Identifiers and timestamps of new records *)

Lemma toString_inj (a b : Z) : toString a = toString b -> a = b.
Proof.
  unfold toString. intros H.
  assert (Hnorm : forall z, NilZero.int_of_string (NilZero.string_of_int (Z.to_int z))
                            = Some (Z.to_int z)).
  { intros z. apply NilZero.isi; destruct z; cbn; try discriminate;
      intros [= E]; exact (DecimalPos.Unsigned.to_uint_nonnil _ E). }
  apply DecimalZ.to_int_inj.
  pose proof (Hnorm a) as Ha. rewrite H, Hnorm in Ha. congruence.
Qed.

Lemma NoDup_snoc (ids : list string) (x : string) :
  NoDup ids -> (NoDup (ids ++ [x]) <-> ~ In x ids).
Proof.
  intros Hids. split.
  - intros H Hin. apply NoDup_remove_2 in H. rewrite app_nil_r in H. exact (H Hin).
  - intros Hx. apply NoDup_incl_NoDup with (l := x :: ids).
    + constructor; assumption.
    + rewrite length_app; cbn [List.length]; lia.
    + intros y Hy. apply in_or_app. cbn [In] in *. tauto.
Qed.

(** C1, amended.  [saveError] returns a record whose [id] is the decimal
    rendering of the clock reading it takes first and whose [timestamp] is
    the reading it takes next, and appends that record to the stored
    collection.  With a clock that never runs backwards the timestamp lies
    between the reading at the start of the call and the reading at its end.
    Two creates return distinct ids exactly when the readings taken for
    their ids differ.  On a collection with distinct ids a create keeps the
    ids distinct exactly when the new id is not already stored. *)
Theorem saveError_assigns_id_and_timestamp (error : NewError) (w : World) :
  exists record w',
    saveError error w = (w', Ok record) /\
    id record = toString (clock w (ticks w)) /\
    timestamp record = clock w (S (ticks w)) /\
    stored w' = (stored w ++ [record])%list /\
    clock w' = clock w /\
    ticks w' = S (S (ticks w)) /\
    (monotone (clock w) ->
     clock w (ticks w) <= timestamp record <= clock w' (ticks w')) /\
    (forall error2 w2 record2,
        snd (saveError error2 w2) = Ok record2 ->
        (id record <> id record2 <-> clock w (ticks w) <> clock w2 (ticks w2))) /\
    (NoDup (map id (stored w)) ->
     (NoDup (map id (stored w')) <-> ~ In (id record) (map id (stored w)))).
Proof.
  exists (created error w).
  exists (with_disk (File (Json (stored w ++ [created error w])))
                    (with_tick (with_tick (ensured w)))).
  assert (Hclock : clock (ensured w) = clock w /\ ticks (ensured w) = ticks w)
    by (destruct w as [d c t s o]; destruct d; split; reflexivity).
  destruct Hclock as [Hclock Hticks].
  split; [apply saveError_run | ].
  split; [reflexivity | ]. split; [reflexivity | ]. split; [reflexivity | ].
  split; [exact Hclock | ].
  split; [cbn [ticks with_disk with_tick]; rewrite Hticks; reflexivity | ].
  split.
  { intros Hmono. cbn [timestamp created clock ticks with_disk with_tick].
    rewrite Hclock, Hticks.
    pose proof (Hmono (ticks w)). pose proof (Hmono (S (ticks w))). lia. }
  split.
  { intros error2 w2 record2. rewrite saveError_run. cbn [snd].
    intros [= <-]. cbn [id created].
    split; intros H E; apply H; [rewrite E; reflexivity | exact (toString_inj _ _ E)]. }
  intros Hnd. cbn [stored disk with_disk].
  rewrite map_app. cbn [map]. apply NoDup_snoc. exact Hnd.
Qed.

Lemma saveError_assigns_id_and_timestamp_witness :
  let w := Sample.tickingWorld (File (Json Sample.three)) in
  exists record w',
    saveError Sample.newError w = (w', Ok record) /\
    clock w (ticks w) <= timestamp record <= clock w' (ticks w') /\
    NoDup (map id (stored w')) /\
    id record <> id (created Sample.newError w').
Proof.
  intros w.
  destruct (saveError_assigns_id_and_timestamp Sample.newError w)
    as (record & w' & Hrun & Hid & _ & _ & Hclock & Hticks & Hwindow & Hpair & Hnodup).
  exists record, w'.
  split; [exact Hrun | ].
  split; [ | split].
  - apply Hwindow. intros n. unfold w, Sample.tickingWorld, clock. lia.
  - apply Hnodup.
    + unfold w, Sample.three, stored, Sample.tickingWorld, disk, Sample.record, map, id.
      repeat constructor; cbn [In]; intuition discriminate.
    + rewrite Hid. vm_compute. intros [H | [H | [H | []]]]; discriminate.
  - apply (Hpair Sample.newError w' (created Sample.newError w')).
    + rewrite saveError_run. reflexivity.
    + rewrite Hclock, Hticks. unfold w, Sample.tickingWorld, clock, ticks. lia.
Defined.

(** C1, as stated, fails: two creates whose id readings fall in the same
    millisecond return the same [id], and the collection then holds that id
    twice.  The clock of [Sample.world] never runs backwards and advances
    one millisecond every third reading. *)
Lemma saveError_same_millisecond :
  let w0 := Sample.world NoFile in
  let w1 := fst (saveError Sample.newError w0) in
  let w2 := fst (saveError Sample.newError w1) in
  exists first second,
    snd (saveError Sample.newError w0) = Ok first /\
    snd (saveError Sample.newError w1) = Ok second /\
    id first = "1700000000000" /\
    id second = "1700000000000" /\
    stored w2 = [first; second] /\
    NoDup (map id (stored w1)) /\
    ~ NoDup (map id (stored w2)).
Proof.
  cbv zeta. eexists; eexists.
  split; [vm_compute; reflexivity | ].
  split; [vm_compute; reflexivity | ].
  split; [reflexivity | ]. split; [reflexivity | ].
  split; [vm_compute; reflexivity | ].
  split.
  - vm_compute. constructor; [intros [] | constructor].
  - vm_compute. intros H. inversion H as [ | ? ? Hnotin ?]; subst.
    apply Hnotin. left; reflexivity.
Qed.

(** ** The list endpoint *)

Lemma GET_run (limit : option string) (w : World) :
  GET limit w =
  (ensured w,
   Ok {| status := 200;
         payload :=
           ListPayload
             (if truthy limit
              then slice (sort byTimestampDescending (stored w)) (Int 0)
                         (parseInt (orEmpty limit))
              else stored w) |}).
Proof.
  unfold GET, try_catch, bind.
  destruct (truthy limit).
  - rewrite getRecentErrors_run. reflexivity.
  - rewrite getAllErrors_run. reflexivity.
Qed.

(** C10, amended.  A GET whose [limit] parameter is a non-empty string that
    is "0" or that [parseInt] turns into [NaN] is answered 200 with the
    empty array.  A GET whose [limit] parameter is present and empty
    ([?limit=], which [parseInt] also turns into [NaN]) takes the branch
    without limit and is answered with the whole stored collection. *)
Theorem GET_limit_without_number (limit : string) (w : World) :
  (limit <> "" -> limit = "0" \/ parseInt limit = NaN ->
   snd (GET (Some limit) w) = Ok {| status := 200; payload := ListPayload [] |}) /\
  parseInt "" = NaN /\
  snd (GET (Some "") w) = Ok {| status := 200; payload := ListPayload (stored w) |}.
Proof.
  split; [ | split; [reflexivity | rewrite GET_run; reflexivity]].
  intros Hne Hlimit. rewrite GET_run. cbn [snd truthy orEmpty].
  apply String.eqb_neq in Hne. rewrite Hne. cbn [negb].
  rewrite slice_nothing; [reflexivity | ].
  destruct Hlimit as [-> | H]; [left; reflexivity | right; exact H].
Qed.

Lemma GET_limit_without_number_witness :
  snd (GET (Some "0") (Sample.world (File (Json Sample.three))))
  = Ok {| status := 200; payload := ListPayload [] |} /\
  snd (GET (Some "ten") (Sample.world (File (Json Sample.three))))
  = Ok {| status := 200; payload := ListPayload [] |}.
Proof.
  split.
  - destruct (GET_limit_without_number "0" (Sample.world (File (Json Sample.three))))
      as (H & _).
    apply H; [discriminate | left; reflexivity].
  - destruct (GET_limit_without_number "ten" (Sample.world (File (Json Sample.three))))
      as (H & _).
    apply H; [discriminate | right; reflexivity].
Defined.

(** C10, as stated, fails: [?limit=] gives a parameter that is present and
    does not parse to an integer, and the answer is the full collection. *)
Lemma GET_empty_limit_lists_everything :
  let w := Sample.world (File (Json Sample.three)) in
  parseInt "" = NaN /\
  snd (GET (Some "") w) = Ok {| status := 200; payload := ListPayload Sample.three |} /\
  snd (GET (Some "") w) <> Ok {| status := 200; payload := ListPayload [] |}.
Proof.
  cbv zeta.
  split; [reflexivity | ]. split; [reflexivity | ].
  vm_compute. discriminate.
Qed.

(** ** Letter case *)

Lemma lower_ascii_idempotent (c : ascii) : lower_ascii (lower_ascii c) = lower_ascii c.
Proof.
  destruct c as [[] [] [] [] [] [] [] []]; reflexivity.
Qed.

Lemma toLowerCase_idempotent (s : string) : toLowerCase (toLowerCase s) = toLowerCase s.
Proof.
  induction s as [ | c s IH]; cbn [toLowerCase].
  - reflexivity.
  - rewrite lower_ascii_idempotent, IH. reflexivity.
Qed.

Lemma toLowerCase_append (a b : string) :
  toLowerCase (a ++ b) = (toLowerCase a ++ toLowerCase b)%string.
Proof.
  induction a as [ | c a IH]; cbn [toLowerCase append].
  - reflexivity.
  - rewrite IH. reflexivity.
Qed.

(** A lowercased string is none of the names that hold a capital. *)
Lemma toLowerCase_not (s name : string) :
  toLowerCase name <> name -> toLowerCase s <> name.
Proof.
  intros Hname E. apply Hname. rewrite <- E. apply toLowerCase_idempotent.
Qed.

(** ** Severity scores *)

(** A severity name scores 4, 3, 2, 1 from critical down to low, in any
    letter case. *)
Lemma calculateSeverityScore_ranks (s : Severity) (label : string) :
  toLowerCase label = severityName s ->
  calculateSeverityScore label
  = Number match s with critical => 4 | high => 3 | medium => 2 | low => 1 end.
Proof.
  intros H. unfold calculateSeverityScore. rewrite H.
  destruct s; reflexivity.
Qed.

Example calculateSeverityScore_ranks_examples :
  calculateSeverityScore "CRITICAL" = Number 4 /\
  calculateSeverityScore "High" = Number 3 /\
  calculateSeverityScore "medium" = Number 2 /\
  calculateSeverityScore "loW" = Number 1.
Proof.
  split; [ | split; [ | split]].
  - apply (calculateSeverityScore_ranks critical "CRITICAL"). reflexivity.
  - apply (calculateSeverityScore_ranks high "High"). reflexivity.
  - apply (calculateSeverityScore_ranks medium "medium"). reflexivity.
  - apply (calculateSeverityScore_ranks low "loW"). reflexivity.
Defined.

(** A label that is not a severity name scores 0, except when its
    lowercase form is "constructor" or "__proto__". *)
Lemma calculateSeverityScore_unknown (label : string) :
  (forall s, toLowerCase label <> severityName s) ->
  (toLowerCase label = "constructor" \/ toLowerCase label = "__proto__" ->
   calculateSeverityScore label = Member (toLowerCase label)) /\
  (toLowerCase label <> "constructor" -> toLowerCase label <> "__proto__" ->
   calculateSeverityScore label = Number 0).
Proof.
  intros Hname. unfold calculateSeverityScore, getProperty.
  set (key := toLowerCase label) in *.
  assert (Hown : ownProperty SEVERITY_SCORES key = None).
  { cbn [ownProperty SEVERITY_SCORES].
    destruct (String.eqb_spec "critical" key) as [E | _];
      [exfalso; exact (Hname critical (eq_sym E)) | ].
    destruct (String.eqb_spec "high" key) as [E | _];
      [exfalso; exact (Hname high (eq_sym E)) | ].
    destruct (String.eqb_spec "medium" key) as [E | _];
      [exfalso; exact (Hname medium (eq_sym E)) | ].
    destruct (String.eqb_spec "low" key) as [E | _];
      [exfalso; exact (Hname low (eq_sym E)) | ].
    reflexivity. }
  rewrite Hown. split.
  - intros [E | E]; rewrite E; reflexivity.
  - intros Hc Hp. cbn [existsb Object_prototype].
    destruct (String.eqb_spec "constructor" key) as [E | _];
      [exfalso; exact (Hc (eq_sym E)) | ].
    destruct (String.eqb_spec "__proto__" key) as [E | _];
      [exfalso; exact (Hp (eq_sym E)) | ].
    repeat match goal with
           | |- context [String.eqb ?name key] =>
               destruct (String.eqb_spec name key) as [E | _];
               [exfalso; apply (toLowerCase_not label name);
                [vm_compute; discriminate | exact (eq_sym E)] | ]
           end.
    reflexivity.
Qed.

Example calculateSeverityScore_unknown_examples :
  calculateSeverityScore "Constructor" = Member "constructor" /\
  calculateSeverityScore "fatal" = Number 0.
Proof.
  split.
  - destruct (calculateSeverityScore_unknown "Constructor") as (H & _).
    + intros []; discriminate.
    + apply H. left; reflexivity.
  - destruct (calculateSeverityScore_unknown "fatal") as (_ & H).
    + intros []; discriminate.
    + apply H; discriminate.
Defined.

(** X1. [calculateSeverityScore] looks at its argument in lowercase only.  A
    severity name scores 4, 3, 2, 1 from critical down to low.  Any other
    label scores 0, except "constructor" and "__proto__": the lookup then
    finds the member every object literal inherits and returns it in place
    of a number. *)
Theorem calculateSeverityScore_cases (label : string) :
  let key := toLowerCase label in
  calculateSeverityScore label = calculateSeverityScore key /\
  (forall s, key = severityName s ->
             calculateSeverityScore label
             = Number match s with critical => 4 | high => 3 | medium => 2 | low => 1 end) /\
  ((forall s, key <> severityName s) ->
   (key = "constructor" \/ key = "__proto__" ->
    calculateSeverityScore label = Member key) /\
   (key <> "constructor" -> key <> "__proto__" ->
    calculateSeverityScore label = Number 0)).
Proof.
  cbv zeta. split; [ | split].
  - unfold calculateSeverityScore. rewrite toLowerCase_idempotent. reflexivity.
  - intros s Hs. exact (calculateSeverityScore_ranks s label Hs).
  - intros Hother. exact (calculateSeverityScore_unknown label Hother).
Qed.

Lemma calculateSeverityScore_cases_witness :
  calculateSeverityScore "CRITICAL" = Number 4 /\
  calculateSeverityScore "Constructor" = Member "constructor" /\
  calculateSeverityScore "fatal" = Number 0.
Proof.
  split; [ | split].
  - destruct (calculateSeverityScore_cases "CRITICAL") as (_ & H & _).
    apply (H critical). reflexivity.
  - destruct (calculateSeverityScore_cases "Constructor") as (_ & _ & H).
    destruct H as (H & _); [intros []; discriminate | ].
    apply H. left; reflexivity.
  - destruct (calculateSeverityScore_cases "fatal") as (_ & _ & H).
    destruct H as (_ & H); [intros []; discriminate | ].
    apply H; discriminate.
Defined.

(** ** The backing file *)

(** X3. [ensureDbFile] never touches a file that exists, whatever it holds;
    it creates a file holding the empty array when the file or its directory
    is missing; running it again changes nothing. *)
Theorem ensureDbFile_creates_once (w : World) :
  snd (ensureDbFile w) = Ok tt /\
  (forall content, disk w = File content -> fst (ensureDbFile w) = w) /\
  (disk w = NoDirectory \/ disk w = NoFile ->
   disk (fst (ensureDbFile w)) = File (Json [])) /\
  ensureDbFile (fst (ensureDbFile w)) = (fst (ensureDbFile w), Ok tt).
Proof.
  rewrite !ensureDbFile_run; cbn [fst snd]. rewrite ?ensureDbFile_run, ensured_ensured.
  split; [reflexivity | ].
  split; [intros content H; exact (ensured_file _ _ H) | ].
  split; [ | reflexivity].
  unfold ensured. intros [H | H]; rewrite H; reflexivity.
Qed.

Lemma ensureDbFile_creates_once_witness :
  fst (ensureDbFile (Sample.world (File (Garbage "[{"))))
  = Sample.world (File (Garbage "[{")) /\
  disk (fst (ensureDbFile (Sample.world NoDirectory))) = File (Json []).
Proof.
  split.
  - destruct (ensureDbFile_creates_once (Sample.world (File (Garbage "[{"))))
      as (_ & H & _).
    apply (H (Garbage "[{")). reflexivity.
  - destruct (ensureDbFile_creates_once (Sample.world NoDirectory)) as (_ & _ & H & _).
    apply H. left; reflexivity.
Defined.

(** ** Looking a record up *)

Lemma getErrorById_run (target : string) (w : World) :
  getErrorById target w
  = (ensured w, Ok (find (fun e => id e =? target)%string (stored w))).
Proof.
  unfold getErrorById, bind. rewrite getAllErrors_run. reflexivity.
Qed.

Lemma find_absent (target : string) (l : list ErrorRecord) :
  find (fun e => id e =? target)%string l = None <-> ~ In target (map id l).
Proof.
  induction l as [ | x l IH]; cbn [find map In].
  - split; [intros _ [] | reflexivity].
  - destruct (String.eqb_spec (id x) target) as [E | E].
    + split; [discriminate | intros H; exfalso; apply H; left; exact E].
    + rewrite IH. tauto.
Qed.

Lemma find_first (target : string) (l : list ErrorRecord) (r : ErrorRecord) :
  find (fun e => id e =? target)%string l = Some r ->
  id r = target /\
  exists before after,
    l = (before ++ r :: after)%list /\ ~ In target (map id before).
Proof.
  induction l as [ | x l IH]; cbn [find]; [discriminate | ].
  destruct (String.eqb_spec (id x) target) as [E | E].
  - intros [= <-]. split; [exact E | ]. exists [], l. split; [reflexivity | intros []].
  - intros H. destruct (IH H) as (Hid & before & after & -> & Hnot).
    split; [exact Hid | ]. exists (x :: before), after.
    split; [reflexivity | ]. cbn [map In]. tauto.
Qed.

Lemma find_app_absent (target : string) (l1 l2 : list ErrorRecord) :
  ~ In target (map id l1) ->
  find (fun e => id e =? target)%string (l1 ++ l2)
  = find (fun e => id e =? target)%string l2.
Proof.
  induction l1 as [ | x l1 IH]; cbn [app find map In]; intros H.
  - reflexivity.
  - destruct (String.eqb_spec (id x) target) as [E | E]; [tauto | ].
    apply IH. tauto.
Qed.

Lemma find_app_present (target : string) (l1 l2 : list ErrorRecord) (r : ErrorRecord) :
  find (fun e => id e =? target)%string l1 = Some r ->
  find (fun e => id e =? target)%string (l1 ++ l2) = Some r.
Proof.
  induction l1 as [ | x l1 IH]; cbn [app find]; [discriminate | ].
  destruct (id x =? target)%string; [trivial | exact IH].
Qed.

(** X4. [getErrorById] returns [null] exactly when no stored record bears
    the id; otherwise it returns the first stored record that bears it. *)
Theorem getErrorById_first_match (target : string) (w : World) :
  (snd (getErrorById target w) = Ok None <-> ~ In target (map id (stored w))) /\
  (forall r, snd (getErrorById target w) = Ok (Some r) ->
             id r = target /\
             exists before after,
               stored w = (before ++ r :: after)%list /\
               ~ In target (map id before)) /\
  (In target (map id (stored w)) ->
   exists r, snd (getErrorById target w) = Ok (Some r)).
Proof.
  rewrite getErrorById_run; cbn [snd].
  split; [ | split].
  - rewrite <- find_absent. split; [intros [= H]; exact H | intros ->; reflexivity].
  - intros r [= H]. exact (find_first _ _ _ H).
  - intros Hin.
    destruct (find (fun e => (id e =? target)%string) (stored w)) as [r | ] eqn:E.
    + exists r; reflexivity.
    + apply find_absent in E. contradiction.
Qed.

Lemma getErrorById_first_match_witness :
  snd (getErrorById "7" (Sample.world (File (Json Sample.three)))) = Ok None /\
  exists r, snd (getErrorById "2" (Sample.world (File (Json Sample.three))))
            = Ok (Some r).
Proof.
  split.
  - destruct (getErrorById_first_match "7" (Sample.world (File (Json Sample.three))))
      as (H & _).
    apply H. cbn. intros [H7 | [H7 | [H7 | []]]]; discriminate.
  - destruct (getErrorById_first_match "2" (Sample.world (File (Json Sample.three))))
      as (_ & _ & H).
    apply H. cbn. right; left; reflexivity.
Defined.

(** X5. Create, then get by id: when the id given to the new record was not
    stored before, the lookup returns the record just created, field for
    field; when an older record already bears that id, the lookup returns
    the older record and the new one cannot be reached by id. *)
Theorem saveError_then_getErrorById (error : NewError) (w : World) :
  exists record w',
    saveError error w = (w', Ok record) /\
    (~ In (id record) (map id (stored w)) ->
     getErrorById (id record) w' = (w', Ok (Some record))) /\
    (forall older,
        snd (getErrorById (id record) w) = Ok (Some older) ->
        getErrorById (id record) w' = (w', Ok (Some older))).
Proof.
  exists (created error w).
  exists (with_disk (File (Json (stored w ++ [created error w])))
                    (with_tick (with_tick (ensured w)))).
  split; [apply saveError_run | ].
  split.
  - intros Hfresh. rewrite getErrorById_run. cbn [stored disk with_disk].
    rewrite (find_app_absent _ _ _ Hfresh). cbn [find].
    rewrite String.eqb_refl. reflexivity.
  - intros older. rewrite !getErrorById_run. cbn [snd stored disk with_disk].
    intros [= H]. fold (stored w). rewrite (find_app_present _ _ _ _ H). reflexivity.
Qed.

Lemma saveError_then_getErrorById_witness :
  (exists record w',
      saveError Sample.newError (Sample.tickingWorld (File (Json Sample.three)))
      = (w', Ok record) /\
      getErrorById (id record) w' = (w', Ok (Some record))) /\
  (exists record w',
      saveError Sample.newError
                (Sample.world (File (Json [Sample.record "1700000000000" 5])))
      = (w', Ok record) /\
      getErrorById (id record) w' = (w', Ok (Some (Sample.record "1700000000000" 5)))).
Proof.
  split.
  - destruct (saveError_then_getErrorById Sample.newError
                (Sample.tickingWorld (File (Json Sample.three))))
      as (record & w' & Hrun & Hfresh & _).
    exists record, w'. split; [exact Hrun | ].
    apply Hfresh.
    rewrite saveError_run in Hrun. injection Hrun as _ <-.
    vm_compute. intros [H | [H | [H | []]]]; discriminate.
  - destruct (saveError_then_getErrorById Sample.newError
                (Sample.world (File (Json [Sample.record "1700000000000" 5]))))
      as (record & w' & Hrun & _ & Holder).
    exists record, w'. split; [exact Hrun | ].
    apply Holder.
    rewrite saveError_run in Hrun. injection Hrun as _ <-.
    vm_compute. reflexivity.
Defined.

(** ** Deleting without unique ids *)

Lemma filter_other_gone (target : string) (l : list ErrorRecord) :
  ~ In target (map id (filter (fun e => negb (id e =? target)%string) l)).
Proof.
  intros H. apply in_map_iff in H. destruct H as (e & Hid & He).
  apply filter_In in He. destruct He as [_ He].
  rewrite Hid, String.eqb_refl in He. discriminate.
Qed.

(** X6. [deleteError] removes every stored record that bears the id, not
    only the first, and keeps the others in their order; it returns true
    exactly when some record bore the id; afterwards no record bears the id
    and [getErrorById] returns [null]. *)
Theorem deleteError_removes_every_match (target : string) (w : World) :
  exists removed w',
    deleteError target w = (w', Ok removed) /\
    stored w' = filter (fun e => negb (id e =? target)%string) (stored w) /\
    (removed = true <-> In target (map id (stored w))) /\
    ~ In target (map id (stored w')) /\
    snd (getErrorById target w') = Ok None.
Proof.
  rewrite deleteError_run. cbv zeta.
  set (filtered := filter (fun e => negb (id e =? target)%string) (stored w)).
  assert (Hgone : ~ In target (map id filtered)) by apply filter_other_gone.
  destruct (Nat.eqb_spec (List.length filtered) (List.length (stored w))) as [E | E].
  - pose proof (filter_length_absent target _ E) as Habsent.
    assert (Hsame : filtered = stored w) by (apply filter_absent; exact Habsent).
    exists false, (ensured w). split; [reflexivity | ].
    rewrite stored_ensured.
    split; [symmetry; exact Hsame | ].
    split; [split; [discriminate | intros H; contradiction] | ].
    split; [exact Habsent | ].
    rewrite getErrorById_run; cbn [snd]. rewrite stored_ensured.
    f_equal. apply find_absent. exact Habsent.
  - exists true, (with_disk (File (Json filtered)) (ensured w)).
    split; [reflexivity | ]. split; [reflexivity | ].
    split.
    { split; [intros _ | reflexivity].
      destruct (in_dec string_dec target (map id (stored w))) as [Hin | Hnot];
        [exact Hin | ].
      exfalso. apply E. unfold filtered.
      rewrite (filter_absent target _ Hnot). reflexivity. }
    split; [exact Hgone | ].
    rewrite getErrorById_run; cbn [snd]. f_equal. apply find_absent. exact Hgone.
Qed.

(** X7. Create, then delete by the id returned: the delete succeeds and
    leaves the collection without any record of that id; when the id was not
    stored before the create, the collection is back to what it was. *)
Theorem saveError_then_deleteError (error : NewError) (w : World) :
  exists record w' w'',
    saveError error w = (w', Ok record) /\
    deleteError (id record) w' = (w'', Ok true) /\
    stored w'' = filter (fun e => negb (id e =? id record)%string) (stored w) /\
    (~ In (id record) (map id (stored w)) -> stored w'' = stored w).
Proof.
  set (record := created error w).
  set (w' := with_disk (File (Json (stored w ++ [record])))
                       (with_tick (with_tick (ensured w)))).
  set (kept := filter (fun e => negb (id e =? id record)%string) (stored w)).
  assert (Hfilter : filter (fun e => negb (id e =? id record)%string) (stored w')
                    = kept).
  { unfold w'. cbn [stored disk with_disk]. rewrite filter_app. cbn [filter].
    rewrite String.eqb_refl. cbn [negb]. apply app_nil_r. }
  exists record, w', (with_disk (File (Json kept)) (ensured w')).
  split; [apply saveError_run | ].
  split.
  { rewrite deleteError_run. cbv zeta. rewrite Hfilter.
    destruct (Nat.eqb_spec (List.length kept) (List.length (stored w'))) as [E | E];
      [ | reflexivity].
    exfalso. pose proof (filter_length_le
                           (fun e => negb (id e =? id record)%string) (stored w)) as Hle.
    fold kept in Hle. unfold w' in E. cbn [stored disk with_disk] in E.
    rewrite length_app in E. cbn [List.length] in E. lia. }
  split; [reflexivity | ].
  intros Hfresh. cbn [stored disk with_disk]. apply filter_absent. exact Hfresh.
Qed.

Lemma saveError_then_deleteError_witness :
  exists record w' w'',
    saveError Sample.newError (Sample.tickingWorld (File (Json Sample.three)))
    = (w', Ok record) /\
    deleteError (id record) w' = (w'', Ok true) /\
    stored w'' = Sample.three.
Proof.
  destruct (saveError_then_deleteError Sample.newError
              (Sample.tickingWorld (File (Json Sample.three))))
    as (record & w' & w'' & Hsave & Hdelete & _ & Hfresh).
  exists record, w', w''.
  split; [exact Hsave | ]. split; [exact Hdelete | ].
  apply Hfresh.
  rewrite saveError_run in Hsave. injection Hsave as _ <-.
  vm_compute. intros [H | [H | [H | []]]]; discriminate.
Defined.

(** ** A file that does not parse *)

(** X8. While the backing file holds text that is not JSON, reads return
    nothing and [deleteError] and [updateError] report that nothing was
    found, all without touching the file; the first [saveError] replaces the
    file by a collection holding only the new record. *)
Theorem unparsable_file_is_overwritten_by_create
    (text : string) (w : World) (error : NewError)
    (target : string) (updates : ErrorUpdates) :
  disk w = File (Garbage text) ->
  getAllErrors w = (w, Ok []) /\
  getErrorById target w = (w, Ok None) /\
  deleteError target w = (w, Ok false) /\
  updateError target updates w = (w, Ok None) /\
  exists record w',
    saveError error w = (w', Ok record) /\
    disk w' = File (Json [record]).
Proof.
  intros Hdisk.
  assert (Hstored : stored w = []) by (unfold stored; rewrite Hdisk; reflexivity).
  assert (Hensured : ensured w = w) by exact (ensured_file _ _ Hdisk).
  split; [rewrite getAllErrors_run, Hstored, Hensured; reflexivity | ].
  split; [rewrite getErrorById_run, Hstored, Hensured; reflexivity | ].
  split; [rewrite deleteError_run, Hstored, Hensured; reflexivity | ].
  split; [rewrite updateError_run, Hstored, Hensured; reflexivity | ].
  eexists; eexists. split; [apply saveError_run | ].
  rewrite Hstored. reflexivity.
Qed.

Lemma unparsable_file_is_overwritten_by_create_witness :
  deleteError "1" (Sample.world (File (Garbage "[{")))
  = (Sample.world (File (Garbage "[{")), Ok false) /\
  exists record w',
    saveError Sample.newError (Sample.world (File (Garbage "[{"))) = (w', Ok record) /\
    disk w' = File (Json [record]).
Proof.
  destruct (unparsable_file_is_overwritten_by_create "[{"
              (Sample.world (File (Garbage "[{"))) Sample.newError "1" Sample.reword
              eq_refl)
    as (_ & _ & Hdelete & _ & Hsave).
  split; [exact Hdelete | exact Hsave].
Defined.

(** ** Updating, continued *)

Lemma spread_nothing (r : ErrorRecord) (updates : ErrorUpdates) :
  upd_id updates = None -> upd_timestamp updates = None ->
  upd_errorMessage updates = None -> upd_errorType updates = None ->
  upd_stackTrace updates = None -> upd_context updates = None ->
  upd_analysis updates = None ->
  spread r updates = r.
Proof.
  intros H1 H2 H3 H4 H5 H6 H7. unfold spread.
  rewrite H1, H2, H3, H4, H5, H6, H7. destruct r; reflexivity.
Qed.

Lemma updateError_shape (target : string) (updates : ErrorUpdates) (w : World) :
  (~ In target (map id (stored w)) ->
   updateError target updates w = (ensured w, Ok None)) /\
  (In target (map id (stored w)) ->
   exists before current after,
     stored w = (before ++ current :: after)%list /\
     id current = target /\
     ~ In target (map id before) /\
     updateError target updates w
     = (with_disk (File (Json (before ++ spread current updates :: after)))
                  (ensured w),
        Ok (Some (spread current updates)))).
Proof.
  split.
  - intros Habsent.
    rewrite updateError_run, (findIndex_absent target _ Habsent). reflexivity.
  - intros Hin.
    destruct (findIndex_present target _ Hin)
      as (before & current & after & Hsplit & Hid & Hnot & Hfind & Hnth & Hassign).
    exists before, current, after.
    split; [exact Hsplit | ]. split; [exact Hid | ]. split; [exact Hnot | ].
    rewrite updateError_run, Hfind, Hnth, Hassign. reflexivity.
Qed.

(** X9. [updateError] never adds or removes a record: the collection keeps
    its size, and every record that does not bear the id stays at its
    position.  With an empty update object the collection is left as it
    was. *)
Theorem updateError_keeps_size (target : string) (updates : ErrorUpdates) (w : World) :
  let w' := fst (updateError target updates w) in
  List.length (stored w') = List.length (stored w) /\
  (forall n r, nth_error (stored w) n = Some r -> id r <> target ->
               nth_error (stored w') n = Some r) /\
  (upd_id updates = None -> upd_timestamp updates = None ->
   upd_errorMessage updates = None -> upd_errorType updates = None ->
   upd_stackTrace updates = None -> upd_context updates = None ->
   upd_analysis updates = None ->
   stored w' = stored w).
Proof.
  cbv zeta.
  destruct (in_dec string_dec target (map id (stored w))) as [Hin | Hnot].
  - destruct (updateError_shape target updates w) as (_ & H).
    destruct (H Hin) as (before & current & after & Hsplit & Hid & _ & Hrun).
    rewrite Hrun; cbn [fst stored disk with_disk]. rewrite Hsplit.
    split; [rewrite !length_app; reflexivity | ].
    split.
    + intros n r Hn Hr.
      destruct (Nat.lt_ge_cases n (List.length before)) as [Hlt | Hge].
      * rewrite nth_error_app1 in * by exact Hlt. exact Hn.
      * rewrite nth_error_app2 in * by exact Hge.
        destruct (n - List.length before)%nat as [ | k]; cbn [nth_error] in *.
        -- injection Hn as <-. contradiction.
        -- exact Hn.
    + intros H1 H2 H3 H4 H5 H6 H7.
      rewrite (spread_nothing current updates H1 H2 H3 H4 H5 H6 H7). reflexivity.
  - destruct (updateError_shape target updates w) as (H & _).
    rewrite (H Hnot); cbn [fst]. rewrite stored_ensured.
    split; [reflexivity | ]. split; [intros n r Hn _; exact Hn | reflexivity].
Qed.

Lemma updateError_keeps_size_witness :
  let w := Sample.world (File (Json Sample.three)) in
  nth_error (stored (fst (updateError "2" Sample.rekey w))) 2
  = Some (Sample.record "3" 20) /\
  stored (fst (updateError "2"
                 {| upd_id := None; upd_timestamp := None; upd_errorMessage := None;
                    upd_errorType := None; upd_stackTrace := None;
                    upd_context := None; upd_analysis := None |} w))
  = stored w.
Proof.
  cbv zeta. split.
  - destruct (updateError_keeps_size "2" Sample.rekey
                (Sample.world (File (Json Sample.three)))) as (_ & H & _).
    apply H; [reflexivity | discriminate].
  - destruct (updateError_keeps_size "2"
                {| upd_id := None; upd_timestamp := None; upd_errorMessage := None;
                   upd_errorType := None; upd_stackTrace := None;
                   upd_context := None; upd_analysis := None |}
                (Sample.world (File (Json Sample.three)))) as (_ & _ & H).
    apply H; reflexivity.
Defined.

(** X10. Update, then get by id.  When the updates do not carry an [id], the
    lookup by the same id returns the merged record.  When they carry a
    different [id], the lookup by the old id skips the merged record and
    returns the next record bearing the old id, if any; the lookup by the
    new id returns the merged record when no record stored before it bears
    the new id. *)
Theorem updateError_then_getErrorById
    (target : string) (updates : ErrorUpdates) (w : World) :
  In target (map id (stored w)) ->
  exists before current after w',
    stored w = (before ++ current :: after)%list /\
    updateError target updates w = (w', Ok (Some (spread current updates))) /\
    (upd_id updates = None ->
     getErrorById target w' = (w', Ok (Some (spread current updates)))) /\
    (forall renamed,
        upd_id updates = Some renamed -> renamed <> target ->
        getErrorById target w'
        = (w', Ok (find (fun e => id e =? target)%string after)) /\
        (~ In renamed (map id before) ->
         getErrorById renamed w' = (w', Ok (Some (spread current updates))))).
Proof.
  intros Hin.
  destruct (updateError_shape target updates w) as (_ & H).
  destruct (H Hin) as (before & current & after & Hsplit & Hid & Hnot & Hrun).
  exists before, current, after.
  exists (with_disk (File (Json (before ++ spread current updates :: after)))
                    (ensured w)).
  split; [exact Hsplit | ]. split; [exact Hrun | ].
  split.
  - intros Hnone. rewrite getErrorById_run. cbn [stored disk with_disk].
    rewrite (find_app_absent _ _ _ Hnot). cbn [find spread id].
    rewrite Hnone. cbn [orElse]. rewrite Hid, String.eqb_refl. reflexivity.
  - intros renamed Hsome Hdiff.
    split.
    + rewrite getErrorById_run. cbn [stored disk with_disk].
      rewrite (find_app_absent _ _ _ Hnot). cbn [find spread id].
      rewrite Hsome. cbn [orElse].
      apply String.eqb_neq in Hdiff. rewrite Hdiff. reflexivity.
    + intros Hfresh. rewrite getErrorById_run. cbn [stored disk with_disk].
      rewrite (find_app_absent _ _ _ Hfresh).
      cbn [find spread id]. rewrite Hsome. cbn [orElse].
      rewrite String.eqb_refl. reflexivity.
Qed.

Lemma updateError_then_getErrorById_witness :
  (exists merged w',
      updateError "2" Sample.reword (Sample.world (File (Json Sample.three)))
      = (w', Ok (Some merged)) /\
      getErrorById "2" w' = (w', Ok (Some merged))) /\
  (exists merged w',
      updateError "1" Sample.rekey (Sample.world (File (Json [Sample.record "1" 10])))
      = (w', Ok (Some merged)) /\
      getErrorById "2" w' = (w', Ok (Some merged))).
Proof.
  split.
  - destruct (updateError_then_getErrorById "2" Sample.reword
                (Sample.world (File (Json Sample.three))))
      as (before & current & after & w' & _ & Hrun & Hsame & _).
    + cbn. right; left; reflexivity.
    + eexists; exists w'. split; [exact Hrun | apply Hsame; reflexivity].
  - destruct (updateError_then_getErrorById "1" Sample.rekey
                (Sample.world (File (Json [Sample.record "1" 10]))))
      as (before & current & after & w' & Hsplit & Hrun & _ & Hrenamed).
    + cbn. left; reflexivity.
    + destruct (Hrenamed "2" eq_refl) as (_ & Hnew); [discriminate | ].
      eexists; exists w'. split; [exact Hrun | ].
      apply Hnew. intros Hb.
      assert (Hin : In "2" (map id (stored (Sample.world
                                              (File (Json [Sample.record "1" 10])))))).
      { rewrite Hsplit, map_app. apply in_or_app. left; exact Hb. }
      cbn in Hin. destruct Hin as [Hin | []]. discriminate.
Defined.

(** ** Decimal numbers: [toString] and [parseInt] *)

Lemma parseDigits_step (c : ascii) (s : string) (d a : Z) :
  digitValue c = Some d -> d < 10 ->
  parseDigits 10 (String c s) (Some a) = parseDigits 10 s (Some (10 * a + d)).
Proof.
  intros Hd Hlt. cbn [parseDigits]. rewrite Hd.
  apply Z.ltb_lt in Hlt. rewrite Hlt. reflexivity.
Qed.

Ltac digit_step :=
  first [ rewrite (parseDigits_step _ _ 0) by first [reflexivity | lia]
        | rewrite (parseDigits_step _ _ 1) by first [reflexivity | lia]
        | rewrite (parseDigits_step _ _ 2) by first [reflexivity | lia]
        | rewrite (parseDigits_step _ _ 3) by first [reflexivity | lia]
        | rewrite (parseDigits_step _ _ 4) by first [reflexivity | lia]
        | rewrite (parseDigits_step _ _ 5) by first [reflexivity | lia]
        | rewrite (parseDigits_step _ _ 6) by first [reflexivity | lia]
        | rewrite (parseDigits_step _ _ 7) by first [reflexivity | lia]
        | rewrite (parseDigits_step _ _ 8) by first [reflexivity | lia]
        | rewrite (parseDigits_step _ _ 9) by first [reflexivity | lia] ].

Lemma parseDigits_acc (d : Decimal.uint) :
  forall acc : positive,
    parseDigits 10 (NilEmpty.string_of_uint d) (Some (Z.pos acc))
    = Some (Z.pos (Pos.of_uint_acc d acc)).
Proof.
  induction d; intros acc; cbn [NilEmpty.string_of_uint Pos.of_uint_acc];
    try reflexivity;
    digit_step; rewrite <- IHd; do 2 f_equal; lia.
Qed.

Lemma parseDigits_uint (d : Decimal.uint) :
  parseDigits 10 (NilEmpty.string_of_uint d) (Some 0) = Some (Z.of_N (Pos.of_uint d)).
Proof.
  induction d; cbn [NilEmpty.string_of_uint Pos.of_uint];
    try reflexivity;
    digit_step;
    try exact IHd;
    cbn [Z.of_N]; rewrite <- parseDigits_acc; reflexivity.
Qed.

Lemma parseDigits_start (d : Decimal.uint) :
  d <> Decimal.Nil ->
  parseDigits 10 (NilEmpty.string_of_uint d) None
  = parseDigits 10 (NilEmpty.string_of_uint d) (Some 0).
Proof.
  destruct d; intros H; try reflexivity. contradiction.
Qed.

Ltac decide_white :=
  repeat match goal with
         | |- context [isWhiteSpace ?c] =>
             let b := eval vm_compute in (isWhiteSpace c) in
             change (isWhiteSpace c) with b
         end.

Lemma parseInt_digits (d : Decimal.uint) :
  d <> Decimal.Nil ->
  parseInt (NilEmpty.string_of_uint d) = Int (Z.of_N (Pos.of_uint d)) /\
  parseInt (String "-" (NilEmpty.string_of_uint d)) = Int (- Z.of_N (Pos.of_uint d)).
Proof.
  intros Hd.
  pose proof (parseDigits_start d Hd) as Hstart.
  rewrite parseDigits_uint in Hstart.
  destruct d as [ | d | d | d | d | d | d | d | d | d | d]; [contradiction | ..];
    destruct d; cbn [NilEmpty.string_of_uint] in Hstart |- *;
    unfold parseInt; cbn [trimStart]; decide_white; cbv beta iota zeta;
    rewrite Hstart; split; f_equal; lia.
Qed.

Lemma parseInt_toString (z : Z) : parseInt (toString z) = Int z.
Proof.
  unfold toString.
  destruct z as [ | p | p]; [reflexivity | | ];
    cbn [Z.to_int NilZero.string_of_int];
    pose proof (DecimalPos.Unsigned.to_uint_nonnil p) as Hnil;
    pose proof (DecimalPos.Unsigned.of_to p) as Hof;
    destruct (parseInt_digits (Pos.to_uint p) Hnil) as [Hpos Hneg];
    unfold NilZero.string_of_uint;
    destruct (Pos.to_uint p) eqn:E; try contradiction;
    rewrite ?Hpos, ?Hneg; unfold N.of_uint in *; f_equal;
    try (rewrite Hof; reflexivity).
Qed.

Lemma toString_nonempty (z : Z) : toString z <> "".
Proof.
  intros E. pose proof (parseInt_toString z) as H. rewrite E in H. discriminate.
Qed.

(** X11. The [id] of a new record read back with [parseInt] is the clock
    reading taken for it; with a clock that never runs backwards that number
    is at most the record's [timestamp]. *)
Theorem saveError_id_reads_back (error : NewError) (w : World) :
  exists record w',
    saveError error w = (w', Ok record) /\
    parseInt (id record) = Int (clock w (ticks w)) /\
    (monotone (clock w) ->
     forall n, parseInt (id record) = Int n -> n <= timestamp record).
Proof.
  eexists; eexists. split; [apply saveError_run | ].
  cbn [id timestamp created]. rewrite parseInt_toString.
  split; [reflexivity | ].
  intros Hmono n [= <-]. apply Hmono.
Qed.

Lemma saveError_id_reads_back_witness :
  exists record w',
    saveError Sample.newError (Sample.world NoFile) = (w', Ok record) /\
    forall n, parseInt (id record) = Int n -> n <= timestamp record.
Proof.
  destruct (saveError_id_reads_back Sample.newError (Sample.world NoFile))
    as (record & w' & Hrun & _ & Hle).
  exists record, w'. split; [exact Hrun | ].
  apply Hle. intros n. unfold Sample.world, clock.
  assert (H : Z.of_nat n / 3 <= Z.of_nat (S n) / 3)
    by (apply Z.div_le_mono; lia).
  lia.
Defined.

(** ** Sorting and filtering *)

Lemma insert_first (x : ErrorRecord) (l : list ErrorRecord) :
  (forall y, hd_error l = Some y -> timestamp y <= timestamp x) ->
  insert byTimestampDescending x l = x :: l.
Proof.
  destruct l as [ | y l]; cbn [insert hd_error]; intros H; [reflexivity | ].
  unfold byTimestampDescending.
  specialize (H y eq_refl). apply Z.leb_le in H.
  replace (timestamp y - timestamp x <=? 0) with true; [reflexivity | ].
  symmetry. apply Z.leb_le. apply Z.leb_le in H. lia.
Qed.

Lemma descending_head_bound (y : ErrorRecord) (l : list ErrorRecord) (f : ErrorRecord -> bool) :
  descending (y :: l) ->
  forall z, hd_error (filter f (y :: l)) = Some z -> timestamp z <= timestamp y.
Proof.
  intros Hsorted z Hz.
  assert (Hin : In z (filter f (y :: l))).
  { destruct (filter f (y :: l)); [discriminate | ].
    cbn in Hz. injection Hz as ->. left; reflexivity. }
  apply filter_In in Hin. destruct Hin as [[<- | Hin] _]; [lia | ].
  inversion Hsorted as [ | ? ? _ Hall]; subst.
  rewrite Forall_forall in Hall. specialize (Hall z Hin). lia.
Qed.

(** Inserting into a sorted list, then filtering, is filtering, then
    inserting. *)
Lemma filter_insert (f : ErrorRecord -> bool) (x : ErrorRecord) (l : list ErrorRecord) :
  descending l ->
  filter f (insert byTimestampDescending x l)
  = if f x then insert byTimestampDescending x (filter f l) else filter f l.
Proof.
  induction l as [ | y l IH]; intros Hsorted.
  - cbn [insert filter]. destruct (f x); reflexivity.
  - cbn [insert]. unfold byTimestampDescending at 1.
    destruct (timestamp y - timestamp x <=? 0) eqn:E.
    + apply Z.leb_le in E. cbn [filter]. destruct (f x) eqn:Fx; [ | reflexivity].
      symmetry. apply insert_first. intros z Hz.
      pose proof (descending_head_bound y l f Hsorted z Hz). lia.
    + apply Z.leb_gt in E.
      assert (Htail : descending l) by (inversion Hsorted; assumption).
      cbn [filter]. rewrite (IH Htail).
      destruct (f y) eqn:Fy; destruct (f x) eqn:Fx; try reflexivity.
      cbn [insert]. unfold byTimestampDescending at 2.
      replace (timestamp y - timestamp x <=? 0) with false; [reflexivity | ].
      symmetry. apply Z.leb_gt. lia.
Qed.

Lemma filter_sort (f : ErrorRecord -> bool) (l : list ErrorRecord) :
  filter f (sort byTimestampDescending l)
  = sort byTimestampDescending (filter f l).
Proof.
  induction l as [ | x l IH]; [reflexivity | ].
  change (sort byTimestampDescending (x :: l))
    with (insert byTimestampDescending x (sort byTimestampDescending l)).
  rewrite filter_insert by apply sort_descending.
  cbn [filter]. rewrite IH. destruct (f x); reflexivity.
Qed.

Lemma sort_same_timestamp (t : Z) (l : list ErrorRecord) :
  Forall (fun e => timestamp e = t) l -> sort byTimestampDescending l = l.
Proof.
  induction 1 as [ | x l Hx Hl IH]; [reflexivity | ].
  change (sort byTimestampDescending (x :: l))
    with (insert byTimestampDescending x (sort byTimestampDescending l)).
  rewrite IH. apply insert_first.
  intros y Hy. destruct l as [ | y' l']; [discriminate | ].
  cbn in Hy. injection Hy as <-. inversion Hl; subst. lia.
Qed.

(** [slice(0, last)] is always a prefix. *)
Lemma slice_is_prefix {A : Type} (l : list A) (last : number) :
  slice l (Int 0) last
  = firstn (Z.to_nat (clampIndex (Z.of_nat (List.length l)) (toIntegerOrInfinity last))) l.
Proof.
  unfold slice. cbn [toIntegerOrInfinity].
  set (len := Z.of_nat (List.length l)).
  assert (H0 : clampIndex len 0 = 0) by (unfold clampIndex; cbn; lia).
  rewrite H0. cbn [Z.to_nat skipn]. f_equal.
  unfold clampIndex. destruct (toIntegerOrInfinity last <? 0); lia.
Qed.

(** What a prefix of the sorted collection is made of. *)
Lemma sorted_prefix (l : list ErrorRecord) (k : nat) :
  let sorted := sort byTimestampDescending l in
  descending (firstn k sorted) /\
  Permutation (firstn k sorted ++ skipn k sorted) l /\
  (forall a b, In a (firstn k sorted) -> In b (skipn k sorted) ->
               timestamp a >= timestamp b).
Proof.
  intros sorted.
  pose proof (sort_descending l) as Hsorted. fold sorted in Hsorted.
  rewrite <- (firstn_skipn k sorted) in Hsorted.
  apply descending_app in Hsorted. destruct Hsorted as [Hrecent Hcross].
  split; [exact Hrecent | ].
  split; [rewrite firstn_skipn; apply sort_perm | exact Hcross].
Qed.

(** X12. Records that share a timestamp come out of [getRecentErrors] in the
    order they are stored, and a limit cuts the latest stored of them first:
    for every timestamp, the returned records bearing it are a prefix of the
    stored records bearing it. *)
Theorem getRecentErrors_stable (limit : option number) (w : World) (t : Z) :
  exists recent rest,
    snd (getRecentErrors limit w) = Ok recent /\
    filter (fun e => timestamp e =? t) (stored w)
    = (filter (fun e => timestamp e =? t) recent ++ rest)%list.
Proof.
  rewrite getRecentErrors_run; cbn [snd]. rewrite slice_is_prefix.
  set (sorted := sort byTimestampDescending (stored w)).
  set (k := Z.to_nat _).
  exists (firstn k sorted), (filter (fun e => timestamp e =? t) (skipn k sorted)).
  split; [reflexivity | ].
  rewrite <- filter_app, firstn_skipn. unfold sorted. rewrite filter_sort.
  symmetry. apply (sort_same_timestamp t).
  apply Forall_forall. intros e He. apply filter_In in He.
  destruct He as [_ He]. apply Z.eqb_eq in He. exact He.
Qed.

(** X13. A negative limit [-k] does not limit to [k] records: it returns the
    sorted collection without its [k] oldest records (nothing when the
    collection has at most [k] records). *)
Theorem getRecentErrors_negative_limit (w : World) (n : Z) :
  n < 0 ->
  exists recent oldest,
    snd (getRecentErrors (Some (Int n)) w) = Ok recent /\
    Z.of_nat (List.length recent) = Z.max (Z.of_nat (List.length (stored w)) + n) 0 /\
    Z.of_nat (List.length oldest) = Z.min (- n) (Z.of_nat (List.length (stored w))) /\
    descending recent /\
    Permutation (recent ++ oldest) (stored w) /\
    (forall a b, In a recent -> In b oldest -> timestamp a >= timestamp b).
Proof.
  intros Hn. rewrite getRecentErrors_run; cbn [snd]. rewrite slice_is_prefix.
  set (sorted := sort byTimestampDescending (stored w)).
  assert (Hlen : List.length sorted = List.length (stored w))
    by (apply Permutation_length, sort_perm).
  cbn [toIntegerOrInfinity]. unfold clampIndex.
  destruct (n <? 0) eqn:E; [ | apply Z.ltb_ge in E; lia].
  set (k := Z.to_nat _).
  exists (firstn k sorted), (skipn k sorted).
  split; [reflexivity | ].
  split; [rewrite length_firstn; unfold k; lia | ].
  split; [rewrite length_skipn; unfold k; lia | ].
  apply sorted_prefix.
Qed.

Lemma getRecentErrors_negative_limit_witness :
  exists (recent oldest : list ErrorRecord),
    snd (getRecentErrors (Some (Int (-1))) (Sample.world (File (Json Sample.three))))
    = Ok recent /\
    Z.of_nat (List.length recent) = 2 /\
    Z.of_nat (List.length oldest) = 1.
Proof.
  destruct (getRecentErrors_negative_limit (Sample.world (File (Json Sample.three))) (-1))
    as (recent & oldest & Hrun & Hrecent & Holdest & _); [lia | ].
  exists recent, oldest. split; [exact Hrun | ].
  split; [rewrite Hrecent | rewrite Holdest]; reflexivity.
Defined.

(** X14. A GET whose [limit] parameter is the decimal rendering of an
    integer [n >= 1] is answered 200 with the [min n size] most recent
    records, most recent first. *)
Theorem GET_positive_limit (w : World) (n : Z) :
  1 <= n ->
  exists recent older,
    snd (GET (Some (toString n)) w)
    = Ok {| status := 200; payload := ListPayload recent |} /\
    Z.of_nat (List.length recent) = Z.min n (Z.of_nat (List.length (stored w))) /\
    descending recent /\
    Permutation (recent ++ older) (stored w) /\
    (forall a b, In a recent -> In b older -> timestamp a >= timestamp b).
Proof.
  intros Hn. rewrite GET_run; cbn [snd truthy orEmpty].
  pose proof (toString_nonempty n) as Hne. apply String.eqb_neq in Hne.
  rewrite Hne. cbn [negb]. rewrite parseInt_toString, slice_is_prefix.
  set (sorted := sort byTimestampDescending (stored w)).
  assert (Hlen : List.length sorted = List.length (stored w))
    by (apply Permutation_length, sort_perm).
  cbn [toIntegerOrInfinity]. unfold clampIndex.
  destruct (n <? 0) eqn:E; [apply Z.ltb_lt in E; lia | ].
  set (k := Z.to_nat _).
  exists (firstn k sorted), (skipn k sorted).
  split; [reflexivity | ].
  split; [rewrite length_firstn; unfold k; lia | ].
  apply sorted_prefix.
Qed.

Lemma GET_positive_limit_witness :
  exists recent,
    snd (GET (Some "10") (Sample.world (File (Json Sample.three))))
    = Ok {| status := 200; payload := ListPayload recent |} /\
    Z.of_nat (List.length recent) = 3.
Proof.
  destruct (GET_positive_limit (Sample.world (File (Json Sample.three))) 10)
    as (recent & older & Hrun & Hlen & _); [lia | ].
  exists recent. split; [exact Hrun | rewrite Hlen; reflexivity].
Defined.

(** ** Searching *)

Lemma prefix_append (kw rest : string) : String.prefix kw (kw ++ rest) = true.
Proof.
  induction kw as [ | c kw IH]; cbn [append].
  - destruct rest; reflexivity.
  - cbn [String.prefix].
    destruct (ascii_dec c c) as [_ | H]; [exact IH | contradiction].
Qed.

Lemma includes_prefix (s kw : string) : String.prefix kw s = true -> includes s kw = true.
Proof.
  intros H. destruct s; cbn [includes]; rewrite H; reflexivity.
Qed.

Lemma includes_fragment (before kw after : string) :
  includes (before ++ kw ++ after) kw = true.
Proof.
  induction before as [ | c before IH]; cbn [append].
  - apply includes_prefix, prefix_append.
  - cbn [includes]. rewrite IH. apply orb_true_r.
Qed.

Lemma includes_empty (s : string) : includes s "" = true.
Proof.
  apply includes_prefix. destruct s; reflexivity.
Qed.

Lemma searchErrors_run (query : string) (w : World) :
  searchErrors query w =
  (ensured w,
   Ok (filter (fun e =>
                 includes (toLowerCase (errorMessage e)) (toLowerCase query)
                 || includes (toLowerCase (errorType e)) (toLowerCase query)
                 || includes (toLowerCase (context e)) (toLowerCase query))%bool
              (stored w))).
Proof.
  unfold searchErrors, bind. rewrite getAllErrors_run. reflexivity.
Qed.

(** X15. [searchErrors] returns stored records only.  The empty query
    returns the whole collection.  A record is found by any fragment of its
    message, of its type or of its context, whatever the letter case of the
    fragment and of the field. *)
Theorem searchErrors_finds_fragments (query : string) (w : World) :
  exists found,
    snd (searchErrors query w) = Ok found /\
    (forall r, In r found -> In r (stored w)) /\
    (query = "" -> found = stored w) /\
    (forall r field before after,
        In r (stored w) ->
        field = errorMessage r \/ field = errorType r \/ field = context r ->
        toLowerCase field = (before ++ toLowerCase query ++ after)%string ->
        In r found).
Proof.
  rewrite searchErrors_run; cbn [snd]. eexists. split; [reflexivity | ].
  split; [intros r Hr; apply filter_In in Hr; tauto | ].
  split.
  - intros ->. cbn [toLowerCase].
    rewrite <- (filter_ext_in (fun _ => true)); [ | ].
    + induction (stored w) as [ | x l IH]; [reflexivity | cbn [filter]; f_equal; exact IH].
    + intros r _. rewrite includes_empty. reflexivity.
  - intros r field before after Hin Hfield Hlower.
    apply filter_In. split; [exact Hin | ].
    pose proof (includes_fragment before (toLowerCase query) after) as Hinc.
    rewrite <- Hlower in Hinc.
    destruct Hfield as [-> | [-> | ->]]; rewrite Hinc;
      rewrite ?orb_true_r; reflexivity.
Qed.

Lemma searchErrors_finds_fragments_witness :
  exists found,
    snd (searchErrors "REFUSED" (Sample.world (File (Json Sample.three)))) = Ok found /\
    In (Sample.record "2" 30) found /\
    snd (searchErrors "" (Sample.world (File (Json Sample.three)))) = Ok Sample.three.
Proof.
  destruct (searchErrors_finds_fragments "REFUSED"
              (Sample.world (File (Json Sample.three))))
    as (found & Hrun & _ & _ & Hfragment).
  exists found. split; [exact Hrun | ]. split.
  - apply (Hfragment (Sample.record "2" 30) "connection refused" "connection " "").
    + cbn. right; left; reflexivity.
    + left; reflexivity.
    + reflexivity.
  - destruct (searchErrors_finds_fragments ""
                (Sample.world (File (Json Sample.three))))
      as (all & Hall & _ & Hempty & _).
    rewrite Hall, (Hempty eq_refl). reflexivity.
Defined.

(** ** The history page *)

Lemma loaded_In (r : ErrorRecord) (data : list ErrorRecord) :
  In r (HistoryPage.loaded data) <-> In r data.
Proof.
  unfold HistoryPage.loaded. split; apply Permutation_in;
    [apply sort_perm | apply Permutation_sym, sort_perm].
Qed.

(** X16. The filter of the history page shows every record the server-side
    search returns for the same query.  It shows more in two cases only: a
    query that is blank once trimmed shows everything, and a record whose
    [id] contains the lowercased query is shown as well. *)
Theorem history_filter_covers_search (query : string) (w : World) (r : ErrorRecord) :
  (forall found, snd (searchErrors query w) = Ok found -> In r found ->
                 In r (HistoryPage.filteredErrors query (HistoryPage.loaded (stored w)))) /\
  (In r (HistoryPage.filteredErrors query (HistoryPage.loaded (stored w))) ->
   trim query <> "" ->
   includes (id r) (toLowerCase query) = false ->
   exists found, snd (searchErrors query w) = Ok found /\ In r found).
Proof.
  rewrite searchErrors_run; cbn [snd]. unfold HistoryPage.filteredErrors. split.
  - intros found [= <-] Hr. apply filter_In in Hr. destruct Hr as [Hin Hmatch].
    destruct (trim query =? "")%string.
    + apply loaded_In. exact Hin.
    + apply filter_In. split; [apply loaded_In; exact Hin | ].
      rewrite Hmatch. reflexivity.
  - intros Hr Hblank Hid. apply String.eqb_neq in Hblank. rewrite Hblank in Hr.
    apply filter_In in Hr. destruct Hr as [Hin Hmatch].
    rewrite Hid, orb_false_r in Hmatch.
    eexists. split; [reflexivity | ].
    apply filter_In. split; [apply loaded_In; exact Hin | exact Hmatch].
Qed.

Lemma history_filter_covers_search_witness :
  In (Sample.record "2" 30)
     (HistoryPage.filteredErrors "refused"
        (HistoryPage.loaded (stored (Sample.world (File (Json Sample.three)))))) /\
  exists found,
    snd (searchErrors "Refused" (Sample.world (File (Json Sample.three)))) = Ok found /\
    In (Sample.record "2" 30) found.
Proof.
  split.
  - destruct (history_filter_covers_search "refused"
                (Sample.world (File (Json Sample.three))) (Sample.record "2" 30))
      as (H & _).
    apply (H Sample.three); [reflexivity | right; left; reflexivity].
  - destruct (history_filter_covers_search "Refused"
                (Sample.world (File (Json Sample.three))) (Sample.record "2" 30))
      as (_ & H).
    apply H; [vm_compute; left; reflexivity | discriminate | reflexivity].
Defined.

Lemma deleteError_stored (target : string) (w : World) :
  stored (fst (deleteError target w))
  = filter (fun e => negb (id e =? target)%string) (stored w).
Proof.
  rewrite deleteError_run. cbv zeta.
  destruct (Nat.eqb_spec
              (List.length (filter (fun e => negb (id e =? target)%string) (stored w)))
              (List.length (stored w))) as [E | E]; cbn [fst].
  - rewrite stored_ensured. symmetry.
    apply filter_absent. exact (filter_length_absent target _ E).
  - reflexivity.
Qed.

(** X17. After a delete the history page drops the records bearing the id
    from the list it holds; the list it shows is then the one a reload of
    the page would fetch and sort. *)
Theorem history_delete_matches_reload (target : string) (w : World) :
  HistoryPage.afterDelete target (HistoryPage.loaded (stored w))
  = HistoryPage.loaded (stored (fst (deleteError target w))).
Proof.
  unfold HistoryPage.afterDelete, HistoryPage.loaded.
  rewrite deleteError_stored. apply filter_sort.
Qed.

(** ** The statistics of the dashboard *)

Lemma countWhere_bounds (f : ErrorRecord -> bool) (errors : list ErrorRecord) :
  0 <= countWhere f errors <= Z.of_nat (List.length errors).
Proof.
  unfold countWhere. pose proof (filter_length_le f errors). lia.
Qed.

(** X18. In the counts of the dashboard the four severity counts add up to
    the number of records that carry an analysis, so to the total when every
    record was analysed; no count exceeds the total. *)
Theorem counts_partition (now : Z) (errors : list ErrorRecord) :
  let c := counts now errors in
  ErrorStats.critical c + ErrorStats.high c + ErrorStats.medium c + ErrorStats.low c
  = countWhere (fun e => match analysis e with Some _ => true | None => false end) errors /\
  ErrorStats.critical c + ErrorStats.high c + ErrorStats.medium c + ErrorStats.low c
  <= ErrorStats.total c /\
  0 <= ErrorStats.recentHours c <= ErrorStats.total c /\
  (Forall (fun e => analysis e <> None) errors ->
   ErrorStats.critical c + ErrorStats.high c + ErrorStats.medium c + ErrorStats.low c
   = ErrorStats.total c).
Proof.
  cbv zeta. unfold counts.
  cbn [ErrorStats.critical ErrorStats.high ErrorStats.medium ErrorStats.low
       ErrorStats.total ErrorStats.recentHours].
  assert (Hsum : countWhere (hasSeverity critical) errors
                 + countWhere (hasSeverity high) errors
                 + countWhere (hasSeverity medium) errors
                 + countWhere (hasSeverity low) errors
                 = countWhere (fun e => match analysis e with
                                        | Some _ => true
                                        | None => false
                                        end) errors).
  { unfold countWhere, hasSeverity.
    induction errors as [ | e errors IH]; [reflexivity | ].
    cbn [filter]. destruct (analysis e) as [a | ]; [ | exact IH].
    destruct (severity a); cbn [severity_eqb List.length]; lia. }
  split; [exact Hsum | ].
  split; [rewrite Hsum; apply countWhere_bounds | ].
  split; [apply countWhere_bounds | ].
  intros Hall. rewrite Hsum. unfold countWhere. f_equal. f_equal. clear Hsum.
  induction Hall as [ | e errors He Hall IH]; [reflexivity | ].
  cbn [filter]. destruct (analysis e); [ | contradiction].
  f_equal. exact IH.
Qed.

Lemma counts_partition_witness :
  let c := counts 1700000000000 Sample.three in
  ErrorStats.critical c + ErrorStats.high c + ErrorStats.medium c + ErrorStats.low c
  = ErrorStats.total c.
Proof.
  destruct (counts_partition 1700000000000 Sample.three) as (_ & _ & _ & H).
  apply H. repeat constructor; discriminate.
Defined.

(** ** The handlers of one record *)

Lemma GET_by_id_run (target : string) (w : World) :
  GET_by_id target w =
  (ensured w,
   Ok match find (fun e => id e =? target)%string (stored w) with
      | None => {| item_status := 404; item_payload := ItemError "Error not found" |}
      | Some record => {| item_status := 200; item_payload := ItemRecord record |}
      end).
Proof.
  unfold GET_by_id, try_catch, bind. rewrite getErrorById_run.
  destruct (find _ (stored w)); reflexivity.
Qed.

Lemma DELETE_by_id_run (target : string) (w : World) :
  DELETE_by_id target w =
  (fst (deleteError target w),
   Ok match snd (deleteError target w) with
      | Ok true => {| item_status := 200; item_payload := ItemSuccess true |}
      | _ => {| item_status := 404; item_payload := ItemError "Error not found" |}
      end).
Proof.
  unfold DELETE_by_id, try_catch, bind. rewrite deleteError_run. cbv zeta.
  destruct (_ =? _)%nat; reflexivity.
Qed.

(** X19. GET of one record answers 404 exactly when no stored record bears
    the id, and otherwise 200 with the first stored record that bears it. *)
Theorem GET_by_id_found_or_404 (target : string) (w : World) :
  (~ In target (map id (stored w)) ->
   snd (GET_by_id target w)
   = Ok {| item_status := 404; item_payload := ItemError "Error not found" |}) /\
  (In target (map id (stored w)) ->
   exists before record after,
     stored w = (before ++ record :: after)%list /\
     id record = target /\
     ~ In target (map id before) /\
     snd (GET_by_id target w)
     = Ok {| item_status := 200; item_payload := ItemRecord record |}).
Proof.
  rewrite GET_by_id_run; cbn [snd]. split.
  - intros Habsent. apply find_absent in Habsent. rewrite Habsent. reflexivity.
  - intros Hin.
    destruct (find (fun e => (id e =? target)%string) (stored w)) as [r | ] eqn:E.
    + destruct (find_first _ _ _ E) as (Hid & before & after & Hsplit & Hnot).
      exists before, r, after. repeat (split; [assumption | ]). reflexivity.
    + apply find_absent in E. contradiction.
Qed.

Lemma GET_by_id_found_or_404_witness :
  snd (GET_by_id "7" (Sample.world (File (Json Sample.three))))
  = Ok {| item_status := 404; item_payload := ItemError "Error not found" |} /\
  exists record,
    snd (GET_by_id "3" (Sample.world (File (Json Sample.three))))
    = Ok {| item_status := 200; item_payload := ItemRecord record |} /\
    id record = "3".
Proof.
  split.
  - destruct (GET_by_id_found_or_404 "7" (Sample.world (File (Json Sample.three))))
      as (H & _).
    apply H. cbn. intros [H7 | [H7 | [H7 | []]]]; discriminate.
  - destruct (GET_by_id_found_or_404 "3" (Sample.world (File (Json Sample.three))))
      as (_ & H).
    destruct H as (before & record & after & _ & Hid & _ & Hrun).
    + cbn. right; right; left; reflexivity.
    + exists record. split; [exact Hrun | exact Hid].
Defined.

(** X20. DELETE of one record answers 404 and leaves the collection as it
    was when no stored record bears the id.  Otherwise it answers 200 with
    [success: true]; from then on GET and DELETE of the same id answer 404,
    whether or not the id was borne by one record only. *)
Theorem DELETE_by_id_then_404 (target : string) (w : World) :
  (~ In target (map id (stored w)) ->
   snd (DELETE_by_id target w)
   = Ok {| item_status := 404; item_payload := ItemError "Error not found" |} /\
   stored (fst (DELETE_by_id target w)) = stored w) /\
  (In target (map id (stored w)) ->
   exists w',
     DELETE_by_id target w
     = (w', Ok {| item_status := 200; item_payload := ItemSuccess true |}) /\
     snd (GET_by_id target w')
     = Ok {| item_status := 404; item_payload := ItemError "Error not found" |} /\
     DELETE_by_id target w'
     = (w', Ok {| item_status := 404; item_payload := ItemError "Error not found" |})).
Proof.
  split.
  - intros Habsent. rewrite DELETE_by_id_run; cbn [fst snd].
    rewrite deleteError_stored, (filter_absent target _ Habsent).
    split; [ | reflexivity].
    rewrite deleteError_run. cbv zeta.
    rewrite (filter_absent target _ Habsent), Nat.eqb_refl. reflexivity.
  - intros Hin.
    set (kept := filter (fun e => negb (id e =? target)%string) (stored w)).
    assert (Hgone : ~ In target (map id kept)) by apply filter_other_gone.
    assert (Hdelete : deleteError target w
                      = (with_disk (File (Json kept)) (ensured w), Ok true)).
    { rewrite deleteError_run. cbv zeta. fold kept.
      destruct (Nat.eqb_spec (List.length kept) (List.length (stored w))) as [E | E];
        [ | reflexivity].
      exfalso. exact (filter_length_absent target _ E Hin). }
    exists (with_disk (File (Json kept)) (ensured w)).
    split; [rewrite DELETE_by_id_run, Hdelete; reflexivity | ].
    split.
    + rewrite GET_by_id_run; cbn [snd stored disk with_disk].
      apply find_absent in Hgone. rewrite Hgone. reflexivity.
    + rewrite DELETE_by_id_run, deleteError_run. cbv zeta.
      cbn [stored disk with_disk].
      rewrite (filter_absent target _ Hgone), Nat.eqb_refl. reflexivity.
Qed.

Lemma DELETE_by_id_then_404_witness :
  stored (fst (DELETE_by_id "7" (Sample.world (File (Json Sample.three)))))
  = Sample.three /\
  exists w',
    DELETE_by_id "2" (Sample.world (File (Json Sample.three)))
    = (w', Ok {| item_status := 200; item_payload := ItemSuccess true |}) /\
    snd (GET_by_id "2" w')
    = Ok {| item_status := 404; item_payload := ItemError "Error not found" |}.
Proof.
  split.
  - destruct (DELETE_by_id_then_404 "7" (Sample.world (File (Json Sample.three))))
      as (H & _).
    apply H. cbn. intros [H7 | [H7 | [H7 | []]]]; discriminate.
  - destruct (DELETE_by_id_then_404 "2" (Sample.world (File (Json Sample.three))))
      as (_ & H).
    destruct H as (w' & Hdelete & Hget & _).
    + cbn. right; left; reflexivity.
    + exists w'. split; [exact Hdelete | exact Hget].
Defined.

(** ** Creating through the API *)

(** What an accepted POST does: one analysis call, then one create. *)
Lemma POST_accepted (fields : PostFields) (w : World) (message type : string) :
  body_errorMessage fields = Some message -> message <> "" ->
  body_errorType fields = Some type -> type <> "" ->
  let stack := orEmpty (body_stackTrace fields) in
  let context := orEmpty (body_context fields) in
  let error :=
    {| new_errorMessage := message; new_errorType := type;
       new_stackTrace := stack; new_context := context;
       new_analysis :=
         Some (analysisOf (outcomeOf w message type stack context)
                          message type stack context) |} in
  let called := with_call (requestOf message type stack context) w in
  POST (BodyObject fields) w
  = (fst (saveError error called),
     Ok {| status := 201; payload := RecordPayload (created error called) |}).
Proof.
  intros Hm Hmne Ht Htne. cbv zeta.
  assert (Hguard : (negb (truthy (body_errorMessage fields))
                    || negb (truthy (body_errorType fields)))%bool = false).
  { rewrite Hm, Ht. cbn [truthy].
    apply String.eqb_neq in Hmne, Htne. rewrite Hmne, Htne. reflexivity. }
  unfold POST, try_catch, bind at 1, request_json, ret at 1. rewrite Hguard.
  rewrite Hm, Ht. cbn [orEmpty].
  unfold bind. rewrite analyzeError_run, !saveError_run. reflexivity.
Qed.

(** X21. What an accepted POST stores.  The record holds the message and the
    type of the body, the stack trace and the context of the body or the
    empty string when the body has none, and the analysis [analyzeError]
    returned: the translated answer of the service when the call succeeded,
    and the fallback result (severity high, confidence 0.5) when it failed.
    The service is sent the same four strings. *)
Theorem POST_stores_analysis (fields : PostFields) (w : World) (message type : string) :
  body_errorMessage fields = Some message -> message <> "" ->
  body_errorType fields = Some type -> type <> "" ->
  let stack := orEmpty (body_stackTrace fields) in
  let context' := orEmpty (body_context fields) in
  exists saved w',
    POST (BodyObject fields) w
    = (w', Ok {| status := 201; payload := RecordPayload saved |}) /\
    errorMessage saved = message /\
    errorType saved = type /\
    stackTrace saved = stack /\
    context saved = context' /\
    outbound w' = requestOf message type stack context' :: outbound w /\
    (forall data,
        outcomeOf w message type stack context' = Success (SuccessData data) ->
        analysis saved = Some (transform data)) /\
    (failed (outcomeOf w message type stack context') ->
     analysis saved = Some (fallbackAnalyzer message type stack context') /\
     option_map severity (analysis saved) = Some high /\
     option_map confidenceScore (analysis saved) = Some (Some (1 # 2))).
Proof.
  intros Hm Hmne Ht Htne stack context'.
  eexists; eexists.
  split; [exact (POST_accepted fields w message type Hm Hmne Ht Htne) | ].
  cbn [errorMessage errorType stackTrace context analysis created
       new_errorMessage new_errorType new_stackTrace new_context new_analysis].
  fold stack context'.
  split; [reflexivity | ]. split; [reflexivity | ].
  split; [reflexivity | ]. split; [reflexivity | ].
  split.
  { rewrite saveError_run. cbn [fst outbound with_disk with_tick].
    destruct w as [d c t s o]; destruct d; reflexivity. }
  split.
  - intros data Hdata. rewrite Hdata. reflexivity.
  - intros Hfailed.
    assert (H : analysisOf (outcomeOf w message type stack context')
                           message type stack context'
                = fallbackAnalyzer message type stack context').
    { unfold analysisOf.
      destruct (outcomeOf w message type stack context')
        as [ | | code body | [ | | data]]; try reflexivity.
      contradiction. }
    rewrite H. split; [reflexivity | ].
    cbn [option_map]. split; [ | reflexivity].
    unfold fallbackAnalyzer; cbn [severity]. f_equal.
    rewrite bestMatch_cases.
    repeat match goal with
           | |- context [if ?b then _ else _] => destruct b
           end; reflexivity.
Qed.

Lemma POST_stores_analysis_witness :
  (exists saved w',
      POST (BodyObject (Sample.fields (Some "pool exhausted") (Some "Error")))
           (Sample.world NoFile)
      = (w', Ok {| status := 201; payload := RecordPayload saved |}) /\
      stackTrace saved = "" /\
      analysis saved = Some (fallbackAnalyzer "pool exhausted" "Error" "" "")) /\
  (exists saved w',
      POST (BodyObject (Sample.fields (Some "pool exhausted") (Some "Error")))
           (Sample.servedWorld NoFile)
      = (w', Ok {| status := 201; payload := RecordPayload saved |}) /\
      analysis saved = Some (transform Sample.wire)).
Proof.
  split.
  - destruct (POST_stores_analysis (Sample.fields (Some "pool exhausted") (Some "Error"))
                (Sample.world NoFile) "pool exhausted" "Error")
      as (saved & w' & Hrun & _ & _ & Hstack & _ & _ & _ & Hfailed);
      [reflexivity | discriminate | reflexivity | discriminate | ].
    exists saved, w'. split; [exact Hrun | ]. split; [exact Hstack | ].
    apply Hfailed. exact I.
  - destruct (POST_stores_analysis (Sample.fields (Some "pool exhausted") (Some "Error"))
                (Sample.servedWorld NoFile) "pool exhausted" "Error")
      as (saved & w' & Hrun & _ & _ & _ & _ & _ & Hdata & _);
      [reflexivity | discriminate | reflexivity | discriminate | ].
    exists saved, w'. split; [exact Hrun | ].
    apply Hdata. reflexivity.
Defined.

(** X22. A POST whose body is not JSON, or is the JSON [null], is answered
    500 and leaves the world as it was: nothing is written and the analysis
    service is not called. *)
Theorem POST_unreadable_body (w : World) :
  POST BodyNotJson w
  = (w, Ok {| status := 500; payload := ErrorPayload "Failed to create error record" |}) /\
  POST BodyNull w
  = (w, Ok {| status := 500; payload := ErrorPayload "Failed to create error record" |}).
Proof.
  split; reflexivity.
Qed.

(** X23. POST, then GET or DELETE of the id returned.  When the id given to
    the new record was not stored before, GET answers 200 with the record
    that POST returned, and DELETE answers 200 and leaves the collection as
    it was before the POST. *)
Theorem POST_then_GET_by_id (fields : PostFields) (w : World) (message type : string) :
  body_errorMessage fields = Some message -> message <> "" ->
  body_errorType fields = Some type -> type <> "" ->
  ~ In (toString (clock w (ticks w))) (map id (stored w)) ->
  exists saved w',
    POST (BodyObject fields) w
    = (w', Ok {| status := 201; payload := RecordPayload saved |}) /\
    GET_by_id (id saved) w'
    = (w', Ok {| item_status := 200; item_payload := ItemRecord saved |}) /\
    snd (DELETE_by_id (id saved) w')
    = Ok {| item_status := 200; item_payload := ItemSuccess true |} /\
    stored (fst (DELETE_by_id (id saved) w')) = stored w.
Proof.
  intros Hm Hmne Ht Htne Hfresh.
  eexists; eexists.
  split; [exact (POST_accepted fields w message type Hm Hmne Ht Htne) | ].
  set (stack := orEmpty (body_stackTrace fields)).
  set (context' := orEmpty (body_context fields)).
  set (called := with_call (requestOf message type stack context') w).
  set (error := {| new_errorMessage := message |}).
  assert (Hstored : stored called = stored w) by reflexivity.
  assert (Hid : id (created error called) = toString (clock w (ticks w)))
    by reflexivity.
  rewrite saveError_run. cbn [fst].
  set (saved := created error called) in *.
  set (w' := with_disk _ _).
  assert (Hw' : stored w' = (stored w ++ [saved])%list) by reflexivity.
  assert (Hens : ensured w' = w') by reflexivity.
  assert (Hfilter : filter (fun e => negb (id e =? id saved)%string) (stored w')
                    = stored w).
  { rewrite Hw', filter_app. cbn [filter]. rewrite String.eqb_refl. cbn [negb].
    rewrite app_nil_r. apply filter_absent. rewrite Hid. exact Hfresh. }
  split.
  { rewrite GET_by_id_run, Hens, Hw'.
    rewrite find_app_absent by (rewrite Hid; exact Hfresh).
    cbn [find]. rewrite String.eqb_refl. reflexivity. }
  rewrite DELETE_by_id_run. cbn [fst snd].
  rewrite deleteError_stored, Hfilter. split; [ | reflexivity].
  rewrite deleteError_run. cbv zeta. rewrite Hfilter, Hw', length_app.
  cbn [List.length].
  destruct (Nat.eqb_spec (List.length (stored w)) (List.length (stored w) + 1)%nat)
    as [E | _]; [lia | reflexivity].
Qed.

Lemma POST_then_GET_by_id_witness :
  exists saved w',
    POST (BodyObject (Sample.fields (Some "pool exhausted") (Some "Error")))
         (Sample.world (File (Json Sample.three)))
    = (w', Ok {| status := 201; payload := RecordPayload saved |}) /\
    GET_by_id (id saved) w'
    = (w', Ok {| item_status := 200; item_payload := ItemRecord saved |}) /\
    stored (fst (DELETE_by_id (id saved) w')) = Sample.three.
Proof.
  destruct (POST_then_GET_by_id (Sample.fields (Some "pool exhausted") (Some "Error"))
              (Sample.world (File (Json Sample.three))) "pool exhausted" "Error")
    as (saved & w' & Hpost & Hget & _ & Hdelete);
    [reflexivity | discriminate | reflexivity | discriminate | | ].
  - vm_compute. intros [H | [H | [H | []]]]; discriminate.
  - exists saved, w'. split; [exact Hpost | ]. split; [exact Hget | exact Hdelete].
Defined.

(** ** The analysis gateway, continued *)



(** ** The fallback classifier, continued *)

(** X25. The fallback classification does not depend on letter case: two
    inputs whose four fields agree once lowercased get the same severity,
    category and recommendations. *)
Theorem fallbackAnalyzer_ignores_case
    (errorMessage errorType stackTrace context : string)
    (errorMessage' errorType' stackTrace' context' : string) :
  toLowerCase errorMessage = toLowerCase errorMessage' ->
  toLowerCase errorType = toLowerCase errorType' ->
  toLowerCase stackTrace = toLowerCase stackTrace' ->
  toLowerCase context = toLowerCase context' ->
  let result := fallbackAnalyzer errorMessage errorType stackTrace context in
  let result' := fallbackAnalyzer errorMessage' errorType' stackTrace' context' in
  severity result = severity result' /\
  category result = category result' /\
  recommendations result = recommendations result'.
Proof.
  intros Hm Ht Hs Hc. cbv zeta.
  assert (Htext : fullText errorMessage errorType stackTrace context
                  = fullText errorMessage' errorType' stackTrace' context').
  { unfold fullText. rewrite !toLowerCase_append, Hm, Ht, Hs, Hc. reflexivity. }
  unfold fallbackAnalyzer; cbn [severity category recommendations].
  rewrite Htext. split; [reflexivity | split; reflexivity].
Qed.

Lemma fallbackAnalyzer_ignores_case_witness :
  category (fallbackAnalyzer "DATABASE Timeout" "Error" "" "")
  = category (fallbackAnalyzer "database timeout" "ERROR" "" "").
Proof.
  destruct (fallbackAnalyzer_ignores_case "DATABASE Timeout" "Error" "" ""
              "database timeout" "ERROR" "" "") as (_ & H & _);
    [reflexivity | reflexivity | reflexivity | reflexivity | exact H].
Defined.

(** X26. The fallback result is one of three: its category is "Database",
    "Network" or "Runtime", it carries the four recommendations of that
    pattern, and its root cause always starts with the error type. *)
Theorem fallbackAnalyzer_one_of_three
    (errorMessage errorType stackTrace context : string) :
  let result := fallbackAnalyzer errorMessage errorType stackTrace context in
  (category result = "Database" /\
   recommendations result = pattern_recommendations ERROR_PATTERNS.database \/
   category result = "Network" /\
   recommendations result = pattern_recommendations ERROR_PATTERNS.network \/
   category result = "Runtime" /\
   recommendations result = pattern_recommendations ERROR_PATTERNS.runtime) /\
  List.length (recommendations result) = 4%nat /\
  String.prefix errorType (rootCause result) = true.
Proof.
  cbv zeta. unfold fallbackAnalyzer; cbn [category recommendations rootCause].
  split; [ | split].
  - rewrite bestMatch_cases.
    repeat match goal with
           | |- context [if ?b then _ else _] => destruct b
           end; cbn; tauto.
  - rewrite bestMatch_cases.
    repeat match goal with
           | |- context [if ?b then _ else _] => destruct b
           end; reflexivity.
  - apply prefix_append.
Qed.

(** ** Invariants of the stored collection *)

Lemma clock_ensured (w : World) : clock (ensured w) = clock w.
Proof. destruct w as [d c t s o]; destruct d; reflexivity. Qed.

Lemma ticks_ensured (w : World) : ticks (ensured w) = ticks w.
Proof. destruct w as [d c t s o]; destruct d; reflexivity. Qed.

Lemma filter_all {A : Type} (l : list A) : filter (fun _ => true) l = l.
Proof.
  induction l as [ | x l IH]; [reflexivity | cbn [filter]; f_equal; exact IH].
Qed.

(** An operation either appends the record it creates, reading the clock
    twice, or keeps part of the collection and leaves the clock alone. *)
Lemma perform_effect (op : Operation) (w : World) :
  clock (perform op w) = clock w /\
  ((exists error,
       op = Create error /\
       stored (perform op w) = (stored w ++ [created error w])%list /\
       ticks (perform op w) = S (S (ticks w))) \/
   (ticks (perform op w) = ticks w /\
    exists f, stored (perform op w) = filter f (stored w))).
Proof.
  destruct op as [error | target | target | limit | query | ]; cbn [perform].
  - rewrite saveError_run; cbn [fst clock ticks with_disk with_tick].
    split; [apply clock_ensured | ].
    left. exists error. rewrite ticks_ensured. repeat split; reflexivity.
  - split.
    + rewrite deleteError_run. cbv zeta. destruct (_ =? _)%nat; cbn [fst];
        apply clock_ensured.
    + right. split.
      * rewrite deleteError_run. cbv zeta. destruct (_ =? _)%nat; cbn [fst];
          apply ticks_ensured.
      * eexists. apply deleteError_stored.
  - rewrite getErrorById_run; cbn [fst].
    split; [apply clock_ensured | right].
    split; [apply ticks_ensured | ].
    exists (fun _ => true). rewrite filter_all. apply stored_ensured.
  - rewrite getRecentErrors_run; cbn [fst].
    split; [apply clock_ensured | right].
    split; [apply ticks_ensured | ].
    exists (fun _ => true). rewrite filter_all. apply stored_ensured.
  - rewrite searchErrors_run; cbn [fst].
    split; [apply clock_ensured | right].
    split; [apply ticks_ensured | ].
    exists (fun _ => true). rewrite filter_all. apply stored_ensured.
  - rewrite getAllErrors_run; cbn [fst].
    split; [apply clock_ensured | right].
    split; [apply ticks_ensured | ].
    exists (fun _ => true). rewrite filter_all. apply stored_ensured.
Qed.

Lemma strictlyIncreasing_lt (c : nat -> Z) (n m : nat) :
  strictlyIncreasing c -> (n < m)%nat -> c n < c m.
Proof.
  intros Hc Hlt. induction Hlt as [ | m _ IH].
  - apply Hc.
  - pose proof (Hc m). lia.
Qed.

Lemma monotone_le (c : nat -> Z) (n m : nat) :
  monotone c -> (n <= m)%nat -> c n <= c m.
Proof.
  intros Hc Hle. induction Hle as [ | m _ IH].
  - lia.
  - pose proof (Hc m). lia.
Qed.

Lemma NoDup_map_filter (f : ErrorRecord -> bool) (l : list ErrorRecord) :
  NoDup (map id l) -> NoDup (map id (filter f l)).
Proof.
  induction l as [ | x l IH]; cbn [map filter]; intros H; [constructor | ].
  inversion H as [ | ? ? Hx Hl]; subst.
  destruct (f x); [ | exact (IH Hl)].
  cbn [map]. constructor; [ | exact (IH Hl)].
  intros Hin. apply Hx. apply in_map_iff in Hin. destruct Hin as (e & He & Hin).
  apply filter_In in Hin. apply in_map_iff. exists e. tauto.
Qed.

Lemma Forall_filter_keep {A : Type} (P : A -> Prop) (f : A -> bool) (l : list A) :
  Forall P l -> Forall P (filter f l).
Proof.
  rewrite !Forall_forall. intros H x Hx. apply filter_In in Hx. apply H. tauto.
Qed.

Lemma ascending_filter (f : ErrorRecord -> bool) (l : list ErrorRecord) :
  ascending l -> ascending (filter f l).
Proof.
  unfold ascending. induction 1 as [ | x l Hl IH Hx]; cbn [filter]; [constructor | ].
  destruct (f x); [ | exact IH].
  constructor; [exact IH | apply Forall_filter_keep; exact Hx].
Qed.

Lemma ascending_snoc (l : list ErrorRecord) (r : ErrorRecord) :
  ascending l -> Forall (fun e => timestamp e <= timestamp r) l ->
  ascending (l ++ [r]).
Proof.
  unfold ascending. induction 1 as [ | x l Hl IH Hx]; cbn [app]; intros Hr.
  - constructor; constructor.
  - inversion Hr as [ | ? ? Hxr Hlr]; subst.
    constructor; [exact (IH Hlr) | ].
    apply Forall_app. split; [exact Hx | constructor; [exact Hxr | constructor]].
Qed.

Lemma ids_unique_step (op : Operation) (w : World) :
  strictlyIncreasing (clock w) ->
  idsFromClock w -> NoDup (map id (stored w)) ->
  idsFromClock (perform op w) /\ NoDup (map id (stored (perform op w))).
Proof.
  intros Hclock Hids Hnodup. unfold idsFromClock in *.
  destruct (perform_effect op w) as (Hc & [(error & -> & Hstored & Hticks) | (Hticks & f & Hstored)]);
    rewrite Hstored, Hticks, Hc.
  - split.
    + apply Forall_app. split.
      * eapply Forall_impl; [ | exact Hids].
        cbn. intros r (n & Hn & Hr). exists n. split; [lia | exact Hr].
      * constructor; [ | constructor].
        exists (ticks w). split; [lia | reflexivity].
    + rewrite map_app. cbn [map]. apply NoDup_snoc; [exact Hnodup | ].
      intros Hin. apply in_map_iff in Hin. destruct Hin as (r & Hr & Hin).
      rewrite Forall_forall in Hids. destruct (Hids r Hin) as (n & Hn & Hid).
      rewrite Hid in Hr. cbn [id created] in Hr. apply toString_inj in Hr.
      pose proof (strictlyIncreasing_lt _ _ _ Hclock Hn). lia.
  - split; [apply Forall_filter_keep; exact Hids | apply NoDup_map_filter; exact Hnodup].
Qed.

(** X27. With a clock that advances on every reading, ids stay unique: on a
    collection whose ids are distinct and were all rendered from earlier
    readings, any sequence of creates, deletes and reads leaves a collection
    with distinct ids. *)
Theorem ids_stay_unique (ops : list Operation) (w : World) :
  strictlyIncreasing (clock w) ->
  idsFromClock w -> NoDup (map id (stored w)) ->
  NoDup (map id (stored (performAll ops w))) /\
  idsFromClock (performAll ops w).
Proof.
  revert w. induction ops as [ | op ops IH]; intros w Hclock Hids Hnodup.
  - split; assumption.
  - change (performAll (op :: ops) w) with (performAll ops (perform op w)).
    destruct (ids_unique_step op w Hclock Hids Hnodup) as [Hids' Hnodup'].
    apply IH; [ | exact Hids' | exact Hnodup'].
    destruct (perform_effect op w) as (Hc & _). rewrite Hc. exact Hclock.
Qed.

Lemma ids_stay_unique_witness :
  NoDup (map id (stored (performAll
                           [Create Sample.newError; Create Sample.newError;
                            Remove "1700000000000"; Recent None;
                            Create Sample.newError]
                           (Sample.tickingWorld NoFile)))).
Proof.
  apply (ids_stay_unique _ (Sample.tickingWorld NoFile)).
  - intros n. unfold Sample.tickingWorld, clock. lia.
  - constructor.
  - constructor.
Defined.

Lemma chronological_step (op : Operation) (w : World) :
  monotone (clock w) ->
  timestampsFromClock w -> ascending (stored w) ->
  timestampsFromClock (perform op w) /\ ascending (stored (perform op w)).
Proof.
  intros Hclock Hfrom Hasc. unfold timestampsFromClock in *.
  destruct (perform_effect op w) as (Hc & [(error & -> & Hstored & Hticks) | (Hticks & f & Hstored)]);
    rewrite Hstored, Hticks, Hc.
  - split.
    + apply Forall_app. split.
      * eapply Forall_impl; [ | exact Hfrom].
        cbn. intros r (n & Hn & Hr). exists n. split; [lia | exact Hr].
      * constructor; [ | constructor].
        exists (S (ticks w)). split; [lia | reflexivity].
    + apply ascending_snoc; [exact Hasc | ].
      eapply Forall_impl; [ | exact Hfrom].
      cbn. intros r (n & Hn & Hr). rewrite Hr. cbn [timestamp created].
      apply monotone_le; [exact Hclock | lia].
  - split; [apply Forall_filter_keep; exact Hfrom | apply ascending_filter; exact Hasc].
Qed.

(** X28. With a clock that never runs backwards the file stays in creation
    order: on a collection stored oldest first whose timestamps were all
    read from the clock, any sequence of creates, deletes and reads leaves
    the collection stored oldest first. *)
Theorem file_stays_chronological (ops : list Operation) (w : World) :
  monotone (clock w) ->
  timestampsFromClock w -> ascending (stored w) ->
  ascending (stored (performAll ops w)) /\
  timestampsFromClock (performAll ops w).
Proof.
  revert w. induction ops as [ | op ops IH]; intros w Hclock Hfrom Hasc.
  - split; assumption.
  - change (performAll (op :: ops) w) with (performAll ops (perform op w)).
    destruct (chronological_step op w Hclock Hfrom Hasc) as [Hfrom' Hasc'].
    apply IH; [ | exact Hfrom' | exact Hasc'].
    destruct (perform_effect op w) as (Hc & _). rewrite Hc. exact Hclock.
Qed.

Lemma file_stays_chronological_witness :
  ascending (stored (performAll
                       [Create Sample.newError; Create Sample.newError;
                        Remove "1700000000000"; Search "pool";
                        Create Sample.newError]
                       (Sample.world NoFile))).
Proof.
  apply (file_stays_chronological _ (Sample.world NoFile)).
  - intros n. unfold Sample.world, clock.
    assert (H : Z.of_nat n / 3 <= Z.of_nat (S n) / 3) by (apply Z.div_le_mono; lia).
    lia.
  - constructor.
  - constructor.
Defined.

(** ** The newest record *)



(** ** Updates and unique ids *)

Lemma NoDup_middle (before after : list string) (x : string) :
  NoDup (before ++ x :: after) <-> ~ In x (before ++ after) /\ NoDup (before ++ after).
Proof.
  split.
  - intros H. split; [exact (NoDup_remove_2 _ _ _ H) | exact (NoDup_remove_1 _ _ _ H)].
  - intros [Hx Hrest].
    apply (Permutation_NoDup (Permutation_middle before after x)).
    constructor; assumption.
Qed.

(** X30. On a collection with distinct ids, [updateError] keeps the ids
    distinct when the updates carry no [id]; when they carry one, the ids
    stay distinct exactly when it is the id the record already bears or an
    id no stored record bears. *)
Theorem updateError_and_unique_ids
    (target : string) (updates : ErrorUpdates) (w : World) :
  NoDup (map id (stored w)) -> In target (map id (stored w)) ->
  let w' := fst (updateError target updates w) in
  (upd_id updates = None -> NoDup (map id (stored w'))) /\
  (forall renamed,
      upd_id updates = Some renamed ->
      (NoDup (map id (stored w')) <->
       renamed = target \/ ~ In renamed (map id (stored w)))).
Proof.
  intros Hnodup Hin. cbv zeta.
  destruct (updateError_shape target updates w) as (_ & H).
  destruct (H Hin) as (before & current & after & Hsplit & Hid & _ & Hrun).
  rewrite Hrun; cbn [fst stored disk with_disk].
  rewrite Hsplit in Hnodup |- *.
  rewrite !map_app in *. cbn [map] in *. rewrite Hid in Hnodup.
  apply NoDup_middle in Hnodup. destruct Hnodup as [Hfree Hrest].
  split.
  - intros Hnone. cbn [spread id]. rewrite Hnone. cbn [orElse]. rewrite Hid.
    apply NoDup_middle. split; assumption.
  - intros renamed Hsome. cbn [spread id]. rewrite Hsome. cbn [orElse].
    rewrite NoDup_middle. split.
    + intros [Hnew _].
      destruct (string_dec renamed target) as [E | E]; [left; exact E | right].
      intros Hold. apply in_app_or in Hold. apply Hnew. apply in_or_app.
      destruct Hold as [Hb | [Hc | Ha]]; [left; exact Hb | | right; exact Ha].
      exfalso. apply E. rewrite <- Hc. exact Hid.
    + intros [-> | Hnew]; (split; [ | exact Hrest]); [exact Hfree | ].
      intros Hold. apply Hnew. apply in_app_or in Hold. apply in_or_app.
      destruct Hold as [Hb | Ha]; [left; exact Hb | right; right; exact Ha].
Qed.

Lemma updateError_and_unique_ids_witness :
  NoDup (map id (stored (fst (updateError "2" Sample.reword
                                (Sample.world (File (Json Sample.three))))))) /\
  ~ NoDup (map id (stored (fst (updateError "1" Sample.rekey
                                  (Sample.world (File (Json Sample.three))))))).
Proof.
  assert (Hnodup : NoDup (map id (stored (Sample.world (File (Json Sample.three)))))).
  { cbn. repeat constructor; cbn; intuition discriminate. }
  split.
  - destruct (updateError_and_unique_ids "2" Sample.reword
                (Sample.world (File (Json Sample.three))) Hnodup) as (H & _).
    + cbn. right; left; reflexivity.
    + apply H. reflexivity.
  - destruct (updateError_and_unique_ids "1" Sample.rekey
                (Sample.world (File (Json Sample.three))) Hnodup) as (_ & H).
    + cbn. left; reflexivity.
    + intros Hdup. apply (H "2" eq_refl) in Hdup.
      destruct Hdup as [Hdup | Hdup]; [discriminate | ].
      apply Hdup. cbn. right; left; reflexivity.
Defined.

(** ** The error form *)

(** X2. The form and the server check different things.  The form stops
    exactly on a message that is blank once trimmed; what it lets through is
    never empty.  The server accepts every non-empty message with a
    non-empty type, blank ones included, and stores the four strings of the
    form as they were typed, untrimmed; with an empty type it answers 400
    and stores nothing. *)
Theorem ErrorForm_and_POST (form : ErrorForm.formData) (w : World) :
  let posted :=
    BodyObject {| body_errorMessage := Some (ErrorForm.errorMessage form);
                  body_errorType := Some (ErrorForm.errorType form);
                  body_stackTrace := Some (ErrorForm.stackTrace form);
                  body_context := Some (ErrorForm.context form) |} in
  (ErrorForm.handleSubmit form = None <-> trim (ErrorForm.errorMessage form) = "") /\
  (trim (ErrorForm.errorMessage form) <> "" ->
   ErrorForm.handleSubmit form = Some posted /\ ErrorForm.errorMessage form <> "") /\
  (ErrorForm.errorMessage form <> "" -> ErrorForm.errorType form <> "" ->
   exists saved w',
     POST posted w = (w', Ok {| status := 201; payload := RecordPayload saved |}) /\
     errorMessage saved = ErrorForm.errorMessage form /\
     errorType saved = ErrorForm.errorType form /\
     stackTrace saved = ErrorForm.stackTrace form /\
     context saved = ErrorForm.context form) /\
  (ErrorForm.errorType form = "" ->
   POST posted w
   = (w, Ok {| status := 400; payload := ErrorPayload "Missing required fields" |})).
Proof.
  cbv zeta. unfold ErrorForm.handleSubmit.
  split; [ | split; [ | split]].
  - destruct (String.eqb_spec (trim (ErrorForm.errorMessage form)) "") as [E | E].
    + split; [intros _; exact E | reflexivity].
    + split; [discriminate | intros H; contradiction].
  - intros Hblank. split.
    + apply String.eqb_neq in Hblank. rewrite Hblank. reflexivity.
    + intros E. apply Hblank. rewrite E. reflexivity.
  - intros Hne Htype. eexists; eexists.
    split;
      [exact (POST_accepted
                {| body_errorMessage := Some (ErrorForm.errorMessage form);
                   body_errorType := Some (ErrorForm.errorType form);
                   body_stackTrace := Some (ErrorForm.stackTrace form);
                   body_context := Some (ErrorForm.context form) |}
                w (ErrorForm.errorMessage form) (ErrorForm.errorType form)
                eq_refl Hne eq_refl Htype) | ].
    repeat split; reflexivity.
  - intros Htype. unfold POST, try_catch, bind, request_json, ret.
    cbn [body_errorMessage body_errorType truthy]. rewrite Htype.
    cbn [String.eqb negb]. rewrite orb_true_r. reflexivity.
Qed.

Lemma ErrorForm_and_POST_witness :
  let form := {| ErrorForm.errorMessage := "   "; ErrorForm.errorType := "Error";
                 ErrorForm.stackTrace := ""; ErrorForm.context := "" |} in
  ErrorForm.handleSubmit form = None /\
  exists saved w',
    POST (BodyObject {| body_errorMessage := Some "   ";
                        body_errorType := Some "Error";
                        body_stackTrace := Some "";
                        body_context := Some "" |})
         (Sample.world NoFile)
    = (w', Ok {| status := 201; payload := RecordPayload saved |}) /\
    errorMessage saved = "   ".
Proof.
  intros form.
  destruct (ErrorForm_and_POST form (Sample.world NoFile)) as (Hstop & _ & Haccept & _).
  split.
  - apply Hstop. reflexivity.
  - destruct Haccept as (saved & w' & Hpost & Hmessage & _);
      [discriminate | discriminate | ].
    exists saved, w'. split; [exact Hpost | exact Hmessage].
Defined.
